(** * E0_quiz: a scheduled Telegram quiz bot (bot.py)

    A shallow embedding of [bot.py] and the properties of its question
    store, selector, keyboard encoder, result renderer, dispatcher and
    callback handler.

    Conventions of the embedding.
    - A Python [str] is a [string] (its UTF-8 bytes); a Python [int] is a [Z].
      Where Python looks at characters ([int], [str.strip]) the characters
      are found in the bytes; the table of decimal digits of the
      interpreter's Unicode database is a parameter, [UnicodeData].
    - A chapter resource is a JSON array of question objects in the format the
      repository documents: [{"id", "question", "options": [{"text",
      "correct"?, "explanation"?}]}].  Questions and options are records;
      the two optional keys are [option] fields.
    - Code that raises returns [Raise e]; code that talks to the file system,
      the network, the random generator, the logger or the Telegram transport
      runs in the monad [M], which threads a trace of the calls made and asks
      a [World] for the outcome of each call. *)

From Stdlib Require Import ZArith Ascii String DecimalString DecimalZ.
From stdpp Require Import base tactics option list list_misc strings.
From stdpp Require Import sorting.

Local Open Scope Z_scope.

(* ===================================================================== *)
(** ** Python strings and integers                                        *)
(* ===================================================================== *)

Module Py.

(** Exceptions the program raises itself or receives from its libraries.
    All of them derive from Python's [Exception]. *)
Inductive exn : Type :=
  | ValueError            (* tuple unpacking, int() *)
  | IndexError            (* list subscript, random.choice([]) *)
  | FileNotFoundError     (* raised by load_questions *)
  | HTTPError             (* requests: raise_for_status *)
  | JSONDecodeError       (* json.load / Response.json *)
  | LibraryError (name : string).  (* any other Exception of a library call *)

#[global] Instance exn_eq_dec : EqDecision exn.
Proof. solve_decision. Defined.

(** Outcome of a computation that may raise. *)
Inductive result (A : Type) : Type :=
  | Ok (a : A)
  | Raise (e : exn).
Arguments Ok {A} a.
Arguments Raise {A} e.

Definition nl : string := String (ascii_of_nat 10) EmptyString.

(** [sep.join(items)] *)
Fixpoint join (sep : string) (items : list string) : string :=
  match items with
  | [] => ""
  | [s] => s
  | s :: rest => s +:+ sep +:+ join sep rest
  end.

(** [s.split(sep)] for a one-character separator: one more field than there
    are separators, empty fields kept. *)
Fixpoint split (sep : ascii) (s : string) : list string :=
  match s with
  | EmptyString => [EmptyString]
  | String c s' =>
      if Ascii.eqb c sep then EmptyString :: split sep s'
      else match split sep s' with
           | field :: fields => String c field :: fields
           | [] => [String c EmptyString]
           end
  end.

(** [c in s] *)
Fixpoint contains (c : ascii) (s : string) : bool :=
  match s with
  | EmptyString => false
  | String c' s' => Ascii.eqb c' c || contains c s'
  end.

(** [s.rstrip("/")] *)
Fixpoint rstrip_slash (s : string) : string :=
  match s with
  | EmptyString => EmptyString
  | String c s' =>
      match rstrip_slash s' with
      | EmptyString => if Ascii.eqb c "/" then EmptyString else String c EmptyString
      | t => String c t
      end
  end.

(** [str(n)], which is what an f-string does with an [int]: decimal digits,
    a leading [-] for negative numbers, no leading zeros. *)
Definition str (n : Z) : string := NilZero.string_of_int (Z.to_int n).

(** The whitespace [int()] skips around a number: space, \t, \n, \v, \f, \r. *)
Definition is_space (c : ascii) : bool :=
  let n := nat_of_ascii c in
  (Nat.eqb n 32 || (Nat.leb 9 n && Nat.leb n 13))%bool.

(** The value of an ASCII digit, by its code. *)
Definition digit_value (c : ascii) : option Z :=
  let code := Z.of_nat (nat_of_ascii c) in
  if (48 <=? code) && (code <=? 57) then Some (code - 48) else None.

Fixpoint lstrip (s : string) : string :=
  match s with
  | String c s' => if is_space c then lstrip s' else s
  | EmptyString => EmptyString
  end.

Fixpoint all_space (s : string) : bool :=
  match s with
  | EmptyString => true
  | String c s' => is_space c && all_space s'
  end.

(** The digits of a decimal literal, most significant first.  [acc] is the
    value read so far and [after_digit] says whether the previous character
    was a digit: an underscore is accepted only between two digits, and the
    literal ends at trailing whitespace. *)
Fixpoint int_digits (s : string) (acc : Z) (after_digit : bool) : option Z :=
  match s with
  | EmptyString => if after_digit then Some acc else None
  | String c s' =>
      match digit_value c with
      | Some d => int_digits s' (10 * acc + d) true
      | None =>
          if Ascii.eqb c "_" then
            if after_digit then
              match s' with
              | String c' _ =>
                  match digit_value c' with
                  | Some _ => int_digits s' acc false
                  | None => None
                  end
              | EmptyString => None
              end
            else None
          else if after_digit && all_space s then Some acc
          else None
      end
  end.

(** [PyLong_FromString] in base 10, the parser behind [int()]: it reads an
    ASCII buffer with optional surrounding whitespace, an optional sign and
    digits with single underscores between them.  [None] stands for the
    [ValueError] Python raises. *)
Definition long_from_string (s : string) : option Z :=
  match lstrip s with
  | String "-" s' => Z.opp <$> int_digits s' 0 false
  | String "+" s' => int_digits s' 0 false
  | s' => int_digits s' 0 false
  end.

(** *** Characters

    A [str] is a sequence of code points; the model keeps its UTF-8 bytes.
    The functions below find the characters in the bytes. *)

Definition byte (c : ascii) : N := N_of_ascii c.

(** The bytes 10xxxxxx, which continue a character. *)
Definition is_continuation (c : ascii) : bool :=
  ((128 <=? byte c) && (byte c <? 192))%N.

(** The characters of a string, each as its own bytes: a character is a byte
    with the continuation bytes that follow it. *)
Fixpoint chars (s : string) : list string :=
  match s with
  | EmptyString => []
  | String c s' =>
      match chars s' with
      | String c' g :: gs =>
          if is_continuation c' then String c (String c' g) :: gs
          else String c EmptyString :: String c' g :: gs
      | _ => [String c EmptyString]
      end
  end.

(** Every byte of a string passes a test. *)
Fixpoint forallb_string (test : ascii -> bool) (s : string) : bool :=
  match s with
  | EmptyString => true
  | String c s' => test c && forallb_string test s'
  end.

(** The bytes of a list of characters. *)
Fixpoint unchars (gs : list string) : string :=
  match gs with
  | [] => EmptyString
  | g :: gs' => g +:+ unchars gs'
  end.

(** The payload of a continuation byte. *)
Definition payload (c : ascii) : option N :=
  if is_continuation c then Some (byte c - 128)%N else None.

(** The code point of a character, [None] when its bytes are not the UTF-8
    encoding of a code point. *)
Definition code_point (g : string) : option N :=
  match g with
  | String c0 EmptyString =>
      if (byte c0 <? 128)%N then Some (byte c0) else None
  | String c0 (String c1 EmptyString) =>
      match payload c1 with
      | Some x1 =>
          if ((194 <=? byte c0) && (byte c0 <? 224))%N
          then Some ((byte c0 - 192) * 64 + x1)%N
          else None
      | None => None
      end
  | String c0 (String c1 (String c2 EmptyString)) =>
      match payload c1, payload c2 with
      | Some x1, Some x2 =>
          let ch := ((byte c0 - 224) * 4096 + x1 * 64 + x2)%N in
          if ((224 <=? byte c0) && (byte c0 <? 240) && (2048 <=? ch))%N
          then Some ch else None
      | _, _ => None
      end
  | String c0 (String c1 (String c2 (String c3 EmptyString))) =>
      match payload c1, payload c2, payload c3 with
      | Some x1, Some x2, Some x3 =>
          let ch := ((byte c0 - 240) * 262144 + x1 * 4096 + x2 * 64 + x3)%N in
          if ((240 <=? byte c0) && (byte c0 <? 245)
              && (65536 <=? ch) && (ch <=? 1114111))%N
          then Some ch else None
      | _, _, _ => None
      end
  | _ => None
  end.

(** [Py_UNICODE_ISSPACE]: the characters [str.isspace], [str.strip] and
    [int] take for whitespace.  Below 128 these are \t \n \v \f \r, the
    separators 28 to 31 and the space; above, U+0085, U+00A0, U+1680,
    U+2000 to U+200A, U+2028, U+2029, U+202F, U+205F and U+3000. *)
Definition isspace (ch : N) : bool :=
  ((9 <=? ch) && (ch <=? 13) || (28 <=? ch) && (ch <=? 32)
   || (ch =? 133) || (ch =? 160) || (ch =? 5760)
   || (8192 <=? ch) && (ch <=? 8202)
   || (ch =? 8232) || (ch =? 8233) || (ch =? 8239) || (ch =? 8287)
   || (ch =? 12288))%N.

(** The table of decimal digits of the interpreter's Unicode database, which
    grows with the Unicode version: [Py_UNICODE_TODECIMAL], the value of a
    decimal digit character and a negative number for any other
    character. *)
Class UnicodeData : Type := { todecimal : N -> Z }.

(** [PyUnicode_IS_ASCII] *)
Fixpoint all_ascii (s : string) : bool :=
  match s with
  | EmptyString => true
  | String c s' => (byte c <? 128)%N && all_ascii s'
  end.

(** The loop of [_PyUnicode_TransformDecimalAndSpaceToASCII]: characters
    below 127 stay, whitespace becomes a space, a decimal digit becomes its
    ASCII digit, and the first other character becomes [?] and ends the
    buffer. *)
Fixpoint transform `{UnicodeData} (gs : list string) : string :=
  match gs with
  | [] => EmptyString
  | g :: rest =>
      match code_point g with
      | Some ch =>
          if (ch <? 127)%N then String (ascii_of_N ch) (transform rest)
          else if isspace ch then String " " (transform rest)
          else
            let decimal := todecimal ch in
            if decimal <? 0 then "?"
            else String (ascii_of_N (Z.to_N (48 + decimal) mod 256))
                        (transform rest)
      | None => "?"
      end
  end.

(** [int(s)] in base 10: an ASCII string is parsed as it is, any other
    string after its decimal digits and whitespace have been turned into
    ASCII.  (The interpreter's limit on the number of digits is not
    represented.) *)
Definition int `{UnicodeData} (s : string) : option Z :=
  long_from_string (if all_ascii s then s else transform (chars s)).

(** [l[i]] on a list: negative indices count from the end. *)
Definition getitem {A} (l : list A) (i : Z) : result A :=
  let n := Z.of_nat (length l) in
  let j := if i <? 0 then i + n else i in
  if (j <? 0) || (n <=? j) then Raise IndexError
  else match l !! Z.to_nat j with
       | Some x => Ok x
       | None => Raise IndexError
       end.

End Py.


Import Py.

(* ===================================================================== *)
(** ** Question banks                                                     *)
(* ===================================================================== *)

(** One answer option of a question: the JSON object
    [{"text": ..., "correct": ..., "explanation": ...}], whose last two keys
    may be missing. *)
Record AnswerOption : Type := {
  o_text : string;                 (* opt["text"] *)
  o_correct : option bool;         (* o.get("correct") *)
  o_explanation : option string    (* opt.get("explanation", ...) *)
}.

(** A question: [{"id": ..., "question": ..., "options": [...]}]. *)
Record Question : Type := {
  q_id : Z;                        (* question["id"] *)
  q_question : string;             (* question["question"] *)
  q_options : list AnswerOption    (* question["options"] *)
}.

(** What [json.load] makes of the bytes of a chapter resource. *)
Inductive document : Type :=
  | Parsed (questions : list Question)
  | Unparsable.

(** What [requests.get(url, timeout=15)] comes back with. *)
Inductive response : Type :=
  | NoResponse (e : exn)                           (* the call itself raised *)
  | Response (status_code : Z) (body : document).

(** An [InlineKeyboardButton(label, callback_data=cb)]. *)
Record InlineKeyboardButton : Type := {
  label : string;
  callback_data : string
}.

(** [InlineKeyboardMarkup(buttons)]: rows of buttons. *)
Abbreviation InlineKeyboardMarkup := (list (list InlineKeyboardButton)).

(* ===================================================================== *)
(** ** The outside world and the monad of effects                         *)
(* ===================================================================== *)

(** Calls that leave the program, in the order they are made. *)
Inductive event : Type :=
  | EExists (name : string)                 (* local.exists() *)
  | EOpen (name : string)                   (* open(local) and json.load *)
  | EGet (url : string)                     (* requests.get(url, timeout=15) *)
  | EChoice (len : nat)                     (* random.choice of a sequence *)
  | ESendMessage (chat_id text parse_mode : string)
                 (reply_markup : InlineKeyboardMarkup)
  | EAnswer                                 (* query.answer() *)
  | EEditMessageText (text : string) (parse_mode : option string)
  | ELogInfo (msg : string)                 (* logger.info *)
  | ELogException (msg : string) (e : exn)  (* logger.exception *)
  | ESleep.                                 (* asyncio.sleep(0.6) *)

#[global] Instance InlineKeyboardButton_eq_dec : EqDecision InlineKeyboardButton.
Proof. solve_decision. Defined.

#[global] Instance event_eq_dec : EqDecision event.
Proof. solve_decision. Defined.

(** The answers of the outside world.  The questions directory and the remote
    host do not change during a run; the random generator and the Telegram
    API answer by the moment of the call, which is the number of events
    recorded before it. *)
Record World : Type := {
  local_files : string -> option document;  (* questions/<name>, if it exists *)
  remote : string -> response;              (* url |-> response *)
  draw : nat -> nat;                        (* the random number drawn at a moment *)
  telegram : nat -> option exn              (* None: the API call succeeds *)
}.

(** The module-level configuration, read once from the environment. *)
Record Config : Type := {
  CHAT_ID : string;
  QUESTIONS_PER_RUN : Z;
  MODE : string;
  GITHUB_RAW_BASE_env : option string;      (* os.environ.get("GITHUB_RAW_BASE") *)
  CHAPTERS : list string
}.

(** A computation reads the trace so far, may extend it, and returns or
    raises. *)
Definition M (A : Type) : Type := list event -> result A * list event.

Definition ret {A} (a : A) : M A := fun t => (Ok a, t).

Definition raise {A} (e : exn) : M A := fun t => (Raise e, t).

Definition bind {A B} (m : M A) (f : A -> M B) : M B :=
  fun t => match m t with
           | (Ok a, t') => f a t'
           | (Raise e, t') => (Raise e, t')
           end.

(** [try: m  except Exception as e: handler e] *)
Definition try_except {A} (m : M A) (handler : exn -> M A) : M A :=
  fun t => match m t with
           | (Ok a, t') => (Ok a, t')
           | (Raise e, t') => handler e t'
           end.

Definition lift {A} (r : result A) : M A := fun t => (r, t).

Definition emit (ev : event) : M unit := fun t => (Ok tt, t ++ [ev]).

Declare Scope py_scope.
Delimit Scope py_scope with py.
Notation "x <- m ;; k" := (bind m (fun x => k))
  (at level 100, m at next level, right associativity) : py_scope.
Notation "m ;; k" := (bind m (fun _ => k))
  (at level 100, right associativity) : py_scope.
Local Open Scope py_scope.

(** [for _ in range(n): body] *)
Fixpoint for_range (n : nat) (body : M unit) : M unit :=
  match n with
  | O => ret tt
  | S k => body ;; for_range k body
  end.

(* ===================================================================== *)
(** ** bot.py                                                             *)
(* ===================================================================== *)

(** [GITHUB_RAW_BASE]: the variable with its trailing slashes replaced by a
    single one, or the empty string when it is unset or empty. *)
Definition GITHUB_RAW_BASE (cfg : Config) : string :=
  match GITHUB_RAW_BASE_env cfg with
  | None | Some EmptyString => ""
  | Some base => rstrip_slash base +:+ "/"
  end.

(** The callback data of a button: [f"{chapter}|{question['id']}|{i}"]. *)
Definition encode_callback_data (chapter : string) (qid i : Z) : string :=
  chapter +:+ "|" +:+ str qid +:+ "|" +:+ str i.

(** [chapter, qid, opt_index = query.data.split("|")] followed by
    [qid = int(qid); opt_index = int(opt_index)].  The unpacking and both
    conversions raise [ValueError]. *)
Definition decode_callback_data `{UnicodeData} (data : string)
  : result (string * Z * Z) :=
  match split "|" data with
  | [chapter; qid; opt_index] =>
      match int qid with
      | None => Raise ValueError
      | Some qid =>
          match int opt_index with
          | None => Raise ValueError
          | Some opt_index => Ok (chapter, qid, opt_index)
          end
      end
  | _ => Raise ValueError
  end.

Definition build_keyboard (question : Question) (chapter : string)
  : InlineKeyboardMarkup :=
  imap (fun i opt =>
          let cb := encode_callback_data chapter (q_id question) (Z.of_nat i) in
          [ {| label := o_text opt; callback_data := cb |} ])
       (q_options question).

Definition mark_correct : string := "✅".
Definition mark_wrong : string := "❌".
Definition mark_neutral : string := "▫️".

(** [next((i for i, o in enumerate(options) if o.get("correct")), None)] *)
Definition correct_index (question : Question) : option nat :=
  fst <$> list_find (fun o => o_correct o = Some true) (q_options question).

(** The prefix chosen in the loop body for the option at position [i]. *)
Definition prefix (correct_index : option nat) (selected_index : Z) (i : nat)
  : string :=
  if decide (Some i = correct_index) then mark_correct
  else if decide (Z.of_nat i = selected_index) then mark_wrong
  else mark_neutral.

(** The entries the loop appends to [lines], one for each option. *)
Definition option_lines (question : Question) (selected_index : Z)
  : list string :=
  imap (fun i opt =>
          prefix (correct_index question) selected_index i +:+ " " +:+ o_text opt)
       (q_options question).

(** The last entry of [lines]. *)
Definition explanation_line (selected_expl : string) : string :=
  nl +:+ "💡 " +:+ selected_expl.

Definition format_result_text (question : Question) (selected_index : Z)
  : result string :=
  let lines :=
    ("<b>❓ " +:+ q_question question +:+ "</b>" +:+ nl)
      :: option_lines question selected_index in
  match getitem (q_options question) selected_index with
  | Raise e => Raise e
  | Ok selected =>
      let selected_expl := default "" (o_explanation selected) in
      Ok (join nl (lines ++ [explanation_line selected_expl]))
  end.

(** [r.raise_for_status()]: requests raises for the 4xx and 5xx codes. *)
Definition raise_for_status (status_code : Z) : result unit :=
  if (400 <=? status_code) && (status_code <? 600) then Raise HTTPError
  else Ok tt.

Definition msg_not_found : string := "Question data not found.".
Definition msg_error : string :=
  "An error occurred while processing your answer.".

Section Bot.

Context {unicode : UnicodeData}.
Variable cfg : Config.
Variable w : World.

(** A call of the Telegram API: recorded, then it returns or raises as the
    world says. *)
Definition api_call (ev : event) : M unit :=
  fun t => (match telegram w (length t) with
            | None => Ok tt
            | Some e => Raise e
            end, t ++ [ev]).

(** [random.choice(seq)] *)
Definition random_choice {A} (seq : list A) : M A :=
  fun t => match seq !! (draw w (length t) `mod` length seq)%nat with
           | Some x => (Ok x, t ++ [EChoice (length seq)])
           | None => (Raise IndexError, t)
           end.

Definition local_exists (name : string) : M bool :=
  fun t => (Ok (bool_decide (is_Some (local_files w name))), t ++ [EExists name]).

(** [with open(local, "r", encoding="utf-8") as f: return json.load(f)] *)
Definition open_json_load (name : string) : M (list Question) :=
  fun t => (match local_files w name with
            | Some (Parsed qs) => Ok qs
            | Some Unparsable => Raise JSONDecodeError
            | None => Raise FileNotFoundError
            end, t ++ [EOpen name]).

Definition requests_get (url : string) : M (Z * document) :=
  fun t => (match remote w url with
            | NoResponse e => Raise e
            | Response status_code body => Ok (status_code, body)
            end, t ++ [EGet url]).

(** [r.json()] *)
Definition response_json (body : document) : result (list Question) :=
  match body with
  | Parsed qs => Ok qs
  | Unparsable => Raise JSONDecodeError
  end.

Definition load_questions (chapter : string) : M (list Question) :=
  let local := chapter +:+ ".json" in
  found <- local_exists local ;;
  if found : bool then open_json_load local
  else
    match GITHUB_RAW_BASE cfg with
    | EmptyString => raise FileNotFoundError
    | base =>
        let url := base +:+ chapter +:+ ".json" in
        r <- requests_get url ;;
        lift (raise_for_status r.1) ;;
        lift (response_json r.2)
    end.

(** The [try] block of [send_one_question]. *)
Definition send_one_question_try (chapter : string) : M unit :=
  questions <- load_questions chapter ;;
  q <- random_choice questions ;;
  let text := "📚 <b>" +:+ chapter +:+ "</b>" +:+ nl +:+ nl
              +:+ "❓ " +:+ q_question q in
  api_call (ESendMessage (CHAT_ID cfg) text "HTML" (build_keyboard q chapter)) ;;
  emit (ELogInfo ("Sent question id=" +:+ str (q_id q)
                  +:+ " from chapter=" +:+ chapter)).

Definition send_one_question (chapter : string) : M unit :=
  try_except
    (send_one_question_try chapter)
    (fun e =>
       emit (ELogException ("Failed to send question for chapter " +:+ chapter) e)).

(** [random.choice(CHAPTERS) if MODE == "random" else CHAPTERS[0]] *)
Definition pick_chapter : M string :=
  if String.eqb (MODE cfg) "random" then random_choice (CHAPTERS cfg)
  else lift (getitem (CHAPTERS cfg) 0).

(** The body of the loop of [send_questions]. *)
Definition send_questions_step : M unit :=
  chapter <- pick_chapter ;;
  send_one_question chapter ;;
  emit ESleep.

Definition send_questions : M unit :=
  for_range (Z.to_nat (Z.max 1 (QUESTIONS_PER_RUN cfg))) send_questions_step.

Definition edit_message_text (text : string) (parse_mode : option string) : M unit :=
  api_call (EEditMessageText text parse_mode).

(** The [try] block of [answer_callback]. *)
Definition answer_callback_try (data : string) : M unit :=
  fields <- lift (decode_callback_data data) ;;
  let '(chapter, qid, opt_index) := fields in
  questions <- load_questions chapter ;;
  match list_find (fun qq => q_id qq = qid) questions with
  | None => edit_message_text msg_not_found None
  | Some (_, question) =>
      new_text <- lift (format_result_text question opt_index) ;;
      edit_message_text new_text (Some "HTML")
  end.

Definition answer_callback (data : string) : M unit :=
  api_call EAnswer ;;
  try_except
    (answer_callback_try data)
    (fun e =>
       emit (ELogException "Error processing callback" e) ;;
       edit_message_text msg_error None).

End Bot.


(* ===================================================================== *)
(** ** Start-up: the module-level code of bot.py                          *)
(* ===================================================================== *)

(** The methods of [str] and [pathlib.Path] that the start-up code uses. *)
Module Paths.

(** [Py_UNICODE_ISSPACE] of a character of a string. *)
Definition is_whitespace (g : string) : bool :=
  match code_point g with
  | Some ch => isspace ch
  | None => false
  end.

(** The characters left when the whitespace in front is dropped. *)
Fixpoint lstrip (gs : list string) : list string :=
  match gs with
  | g :: gs' => if is_whitespace g then lstrip gs' else gs
  | [] => []
  end.

(** The characters left when the whitespace at the end is dropped. *)
Fixpoint rstrip (gs : list string) : list string :=
  match gs with
  | [] => []
  | g :: gs' =>
      match rstrip gs' with
      | [] => if is_whitespace g then [] else [g]
      | kept => g :: kept
      end
  end.

(** [s.strip()] *)
Definition strip (s : string) : string := unchars (rstrip (lstrip (chars s))).

(** [s.endswith(suffix)] *)
Fixpoint endswith (s suffix : string) : bool :=
  String.eqb s suffix
  || match s with
     | String _ s' => endswith s' suffix
     | EmptyString => false
     end.

(** [s.rfind(c)]: the position of the last [c], or -1. *)
Fixpoint rfind (c : ascii) (s : string) : Z :=
  match s with
  | EmptyString => -1
  | String x s' =>
      let later := rfind c s' in
      if 0 <=? later then later + 1
      else if Ascii.eqb x c then 0 else -1
  end.

(** [Path.stem] of a file name, as pathlib defines it up to Python 3.13: the
    name without its last suffix; a dot at the start or at the end of the
    name begins no suffix. *)
Definition stem (name : string) : string :=
  let i := rfind "." name in
  if (0 <? i) && (i <? Z.of_nat (String.length name) - 1)
  then substring 0 (Z.to_nat i) name
  else name.

(** The order of [sorted] on the files of one directory: the order of their
    names as strings. *)
Definition name_le (a b : string) : Prop := String.leb a b = true.

#[global] Instance name_le_dec a b : Decision (name_le a b).
Proof. unfold name_le. apply _. Defined.

End Paths.

(** What the start-up code reads: the environment variables and the names in
    the directory [questions] ([None] when the directory does not exist). *)
Record Environment : Type := {
  environ : string -> option string;
  questions_dir : option (list string)
}.

(** [os.environ.get(key, fallback)] *)
Definition environ_get (env : Environment) (key fallback : string) : string :=
  default fallback (environ env key).

(** The module-level names that [Config] does not carry. *)
Record Settings : Type := {
  BOT_TOKEN : string;
  SCHEDULE_HOUR : Z;
  SCHEDULE_MINUTE : Z;
  TIMEZONE : string;
  config : Config
}.

(** How the import of the module ends: all names bound, [SystemExit] raised
    by one of the three checks, or an exception of a conversion. *)
Inductive startup_result : Type :=
  | Started (settings : Settings)
  | SystemExit (msg : string)
  | Uncaught (e : exn).

(** [LOCAL_QUESTIONS_DIR.glob("*.json")]: pathlib matches every name that
    ends in [.json], hidden files included. *)
Definition glob_json (names : list string) : list string :=
  filter (fun name => Paths.endswith name ".json" = true) names.

Definition discover_chapters (dir : option (list string)) : list string :=
  match dir with
  | Some names =>
      match glob_json names with
      | [] => []
      | found => Paths.stem <$> merge_sort Paths.name_le found
      end
  | None => []
  end.

(** [[c.strip() for c in CHAPTERS.split(",") if c.strip()]] *)
Definition chapters_of_variable (value : string) : list string :=
  omap (fun c => match Paths.strip c with
                 | EmptyString => None
                 | stripped => Some stripped
                 end)
       (split "," value).

(** Lines 19 to 55, in the order in which they run.  The three [int()]
    conversions come before the checks of the token and of the chat id. *)
Definition startup `{UnicodeData} (env : Environment) : startup_result :=
  match int (environ_get env "QUESTIONS_PER_RUN" "1") with
  | None => Uncaught ValueError
  | Some questions_per_run =>
  match int (environ_get env "SCHEDULE_HOUR" "10") with
  | None => Uncaught ValueError
  | Some schedule_hour =>
  match int (environ_get env "SCHEDULE_MINUTE" "0") with
  | None => Uncaught ValueError
  | Some schedule_minute =>
  match environ env "BOT_TOKEN" with
  | None | Some EmptyString => SystemExit "Set BOT_TOKEN environment variable"
  | Some bot_token =>
  match environ env "CHAT_ID" with
  | None | Some EmptyString => SystemExit "Set CHAT_ID environment variable"
  | Some chat_id =>
      let chapters :=
        match environ env "CHAPTERS" with
        | None | Some EmptyString => discover_chapters (questions_dir env)
        | Some value => chapters_of_variable value
        end in
      match chapters with
      | [] => SystemExit "No chapters found"
      | _ =>
          Started
            {| BOT_TOKEN := bot_token;
               SCHEDULE_HOUR := schedule_hour;
               SCHEDULE_MINUTE := schedule_minute;
               TIMEZONE := environ_get env "TIMEZONE" "Asia/Kolkata";
               config :=
                 {| CHAT_ID := chat_id;
                    QUESTIONS_PER_RUN := questions_per_run;
                    MODE := environ_get env "MODE" "random";
                    GITHUB_RAW_BASE_env := environ env "GITHUB_RAW_BASE";
                    CHAPTERS := chapters |} |}
      end
  end end end end end.

(* ===================================================================== *)
(** ** Vocabulary of the properties                                       *)
(* ===================================================================== *)

(** [i] is the position of the first option whose "correct" field is true. *)
Definition first_correct (question : Question) (i : nat) : Prop :=
  (exists o, q_options question !! i = Some o /\ o_correct o = Some true) /\
  (forall j o, q_options question !! j = Some o -> (j < i)%nat ->
               o_correct o <> Some true).

(** No option of the question is marked correct. *)
Definition none_correct (question : Question) : Prop :=
  Forall (fun o => o_correct o <> Some true) (q_options question).

(** The callback data does not have the shape [chapter|int|int]. *)
Definition malformed `{UnicodeData} (data : string) : Prop :=
  length (split "|" data) <> 3%nat \/
  (exists chapter qid opt_index,
      split "|" data = [chapter; qid; opt_index] /\
      (int qid = None \/ int opt_index = None)).

(** One iteration of the loop of [send_questions], from the trace before it
    to the trace after its pause.  A configured chapter is picked and loaded.
    If loading raises, that exception is logged.  If the bank is empty, the
    [IndexError] of [random.choice] is logged.  Otherwise the question at the
    drawn position is sent to the configured chat with its keyboard, and the
    send is logged if the Telegram API accepts it, the exception of the API
    if it does not.  The pause ends the iteration in every case. *)
Inductive send_iteration (cfg : Config) (w : World) (t : list event)
  : list event -> Prop :=
  | iteration_load_raised chapter t0 e t1 :
      pick_chapter cfg w t = (Ok chapter, t0) ->
      chapter ∈ CHAPTERS cfg ->
      load_questions cfg w chapter t0 = (Raise e, t1) ->
      send_iteration cfg w t
        (t1 ++ [ELogException
                  ("Failed to send question for chapter " +:+ chapter) e;
                ESleep])
  | iteration_bank_empty chapter t0 t1 :
      pick_chapter cfg w t = (Ok chapter, t0) ->
      chapter ∈ CHAPTERS cfg ->
      load_questions cfg w chapter t0 = (Ok [], t1) ->
      send_iteration cfg w t
        (t1 ++ [ELogException
                  ("Failed to send question for chapter " +:+ chapter)
                  IndexError;
                ESleep])
  | iteration_message_sent chapter t0 questions t1 q :
      pick_chapter cfg w t = (Ok chapter, t0) ->
      chapter ∈ CHAPTERS cfg ->
      load_questions cfg w chapter t0 = (Ok questions, t1) ->
      questions !! (draw w (length t1) `mod` length questions)%nat = Some q ->
      telegram w (S (length t1)) = None ->
      send_iteration cfg w t
        (t1 ++ [EChoice (length questions);
                ESendMessage (CHAT_ID cfg)
                  ("📚 <b>" +:+ chapter +:+ "</b>" +:+ nl +:+ nl
                   +:+ "❓ " +:+ q_question q)
                  "HTML" (build_keyboard q chapter);
                ELogInfo ("Sent question id=" +:+ str (q_id q)
                          +:+ " from chapter=" +:+ chapter);
                ESleep])
  | iteration_message_refused chapter t0 questions t1 q e :
      pick_chapter cfg w t = (Ok chapter, t0) ->
      chapter ∈ CHAPTERS cfg ->
      load_questions cfg w chapter t0 = (Ok questions, t1) ->
      questions !! (draw w (length t1) `mod` length questions)%nat = Some q ->
      telegram w (S (length t1)) = Some e ->
      send_iteration cfg w t
        (t1 ++ [EChoice (length questions);
                ESendMessage (CHAT_ID cfg)
                  ("📚 <b>" +:+ chapter +:+ "</b>" +:+ nl +:+ nl
                   +:+ "❓ " +:+ q_question q)
                  "HTML" (build_keyboard q chapter);
                ELogException
                  ("Failed to send question for chapter " +:+ chapter) e;
                ESleep]).

(** A number of iterations, one after the other. *)
Inductive send_iterations (cfg : Config) (w : World)
  : nat -> list event -> list event -> Prop :=
  | iterations_done t : send_iterations cfg w 0 t t
  | iterations_next n t t1 t2 :
      send_iteration cfg w t t1 ->
      send_iterations cfg w n t1 t2 ->
      send_iterations cfg w (S n) t t2.

(** A byte followed by continuation bytes only: the shape of a character. *)
Definition is_char (g : string) : bool :=
  match g with
  | String _ r => forallb_string is_continuation r
  | EmptyString => false
  end.

(** A character that begins with a byte that is no continuation byte. *)
Definition is_headed (g : string) : bool :=
  match g with
  | String c _ => negb (is_continuation c)
  | EmptyString => false
  end.

(** The first character of a list is not whitespace. *)
Definition head_not_whitespace (gs : list string) : Prop :=
  forall g, head gs = Some g -> Paths.is_whitespace g = false.

(** The last character of a list is not whitespace. *)
Definition last_not_whitespace (gs : list string) : Prop :=
  forall g, last gs = Some g -> Paths.is_whitespace g = false.

(** The calls one send can make: file system, network, random generator and
    the message itself. *)
Definition is_call (ev : event) : bool :=
  match ev with
  | EExists _ | EOpen _ | EGet _ | EChoice _ | ESendMessage _ _ _ _ => true
  | _ => false
  end.

(** The trace of one iteration of the loop of [send_questions]: the calls
    made for one of the chapters, among them the lookup of its local file,
    then one log entry, of the question sent or of the exception caught, then
    the pause. *)
Inductive iteration (chapters : list string) : list event -> Prop :=
  | iteration_sent chapter calls msg :
      chapter ∈ chapters ->
      Forall is_call calls ->
      EExists (chapter +:+ ".json") ∈ calls ->
      iteration chapters (calls ++ [ELogInfo msg; ESleep])
  | iteration_failed chapter calls e :
      chapter ∈ chapters ->
      Forall is_call calls ->
      EExists (chapter +:+ ".json") ∈ calls ->
      iteration chapters
        (calls ++ [ELogException
                     ("Failed to send question for chapter " +:+ chapter) e;
                   ESleep]).

(** A message handed to the Telegram API by [send_message]. *)
Definition is_send (ev : event) : bool :=
  match ev with
  | ESendMessage _ _ _ _ => true
  | _ => false
  end.

(** A pause of the batch loop. *)
Definition is_sleep (ev : event) : bool :=
  match ev with
  | ESleep => true
  | _ => false
  end.

(** The question of the worked example: chapter "ch1", question 1. *)
Definition example_question : Question :=
  {| q_id := 1;
     q_question := "2+2=?";
     q_options :=
       [ {| o_text := "3"; o_correct := None; o_explanation := None |};
         {| o_text := "4"; o_correct := Some true;
            o_explanation := Some "basic addition" |};
         {| o_text := "5"; o_correct := None; o_explanation := None |} ] |}.

(** A question in which two options are flagged correct. *)
Definition two_correct_question : Question :=
  {| q_id := 2;
     q_question := "x squared is?";
     q_options :=
       [ {| o_text := "2x"; o_correct := Some false; o_explanation := None |};
         {| o_text := "x^2"; o_correct := Some true; o_explanation := None |};
         {| o_text := "x*x"; o_correct := Some true; o_explanation := None |} ] |}.

(** A second question bank, served by the remote host only. *)
Definition remote_question : Question :=
  {| q_id := 7;
     q_question := "Capital of France?";
     q_options :=
       [ {| o_text := "Paris"; o_correct := Some true; o_explanation := None |};
         {| o_text := "Rome"; o_correct := Some false;
            o_explanation := Some "Rome is in Italy" |} ] |}.

(** A run in random mode, three questions, two chapters. *)
Definition example_config : Config :=
  {| CHAT_ID := "-1001";
     QUESTIONS_PER_RUN := 3;
     MODE := "random";
     GITHUB_RAW_BASE_env := Some "https://example.org/bank/";
     CHAPTERS := ["ch1"; "ch2"] |}.

(** The same with the declared but unimplemented mode. *)
Definition sequential_config : Config :=
  {| CHAT_ID := "-1001";
     QUESTIONS_PER_RUN := 3;
     MODE := "sequential";
     GITHUB_RAW_BASE_env := Some "https://example.org/bank/";
     CHAPTERS := ["ch1"; "ch2"] |}.

(** No remote base configured. *)
Definition offline_config : Config :=
  {| CHAT_ID := "-1001";
     QUESTIONS_PER_RUN := 0;
     MODE := "random";
     GITHUB_RAW_BASE_env := None;
     CHAPTERS := ["ch1"] |}.

(** "ch1" is a local file, "ch2" is on the remote host, every other chapter
    is answered with 404.  The call of the Telegram API at moment 11 times
    out: in a run from the empty trace in random mode that is the second
    send. *)
Definition example_world : World :=
  {| local_files := fun name =>
       if String.eqb name "ch1.json" then Some (Parsed [example_question])
       else None;
     remote := fun url =>
       if String.eqb url "https://example.org/bank/ch2.json"
       then Response 200 (Parsed [remote_question])
       else Response 404 Unparsable;
     draw := fun moment => moment;
     telegram := fun moment =>
       if Nat.eqb moment 11 then Some (LibraryError "TimedOut") else None |}.

(** A world whose only chapter file is the empty array. *)
Definition empty_bank_world : World :=
  {| local_files := fun name =>
       if String.eqb name "ch1.json" then Some (Parsed []) else None;
     remote := fun url => Response 404 Unparsable;
     draw := fun moment => moment;
     telegram := fun moment => None |}.

(** An environment with the two required variables and a directory of
    question files. *)
Definition example_environment : Environment :=
  {| environ := fun key =>
       if String.eqb key "BOT_TOKEN" then Some "123:abc"
       else if String.eqb key "CHAT_ID" then Some "-1001"
       else None;
     questions_dir := Some ["notes.txt"; "ch2.json"; "ch1.json"] |}.

(** The same with a CHAPTERS variable that names no chapter. *)
Definition blank_chapters_environment : Environment :=
  {| environ := fun key =>
       if String.eqb key "BOT_TOKEN" then Some "123:abc"
       else if String.eqb key "CHAT_ID" then Some "-1001"
       else if String.eqb key "CHAPTERS" then Some " , ,"
       else None;
     questions_dir := Some ["notes.txt"; "ch2.json"; "ch1.json"] |}.

(** A world in which the files of [example_environment] are there. *)
Definition discovered_world : World :=
  {| local_files := fun name =>
       if String.eqb name "ch1.json" then Some (Parsed [example_question])
       else if String.eqb name "ch2.json" then Some (Parsed [remote_question])
       else if String.eqb name "notes.txt" then Some Unparsable
       else None;
     remote := fun url => Response 404 Unparsable;
     draw := fun moment => moment;
     telegram := fun moment => None |}.

(** A fragment of a Unicode database for the worked examples: it knows the
    Arabic-Indic digits U+0660 to U+0669 and the fullwidth digits U+FF10 to
    U+FF19. *)
Definition sample_unicode : UnicodeData :=
  {| todecimal := fun ch =>
       if ((1632 <=? ch) && (ch <=? 1641))%N then Z.of_N (ch - 1632)
       else if ((65296 <=? ch) && (ch <=? 65305))%N then Z.of_N (ch - 65296)
       else -1 |}.

(* ===================================================================== *)
(** ** Facts about the Python primitives                                  *)
(* ===================================================================== *)

Section PyFacts.

Context {unicode : UnicodeData}.

Lemma append_nil (b : string) : "" +:+ b = b.
Proof. reflexivity. Qed.

Lemma append_cons x (a b : string) : String x a +:+ b = String x (a +:+ b).
Proof. reflexivity. Qed.

Lemma append_assoc (a b c : string) : (a +:+ b) +:+ c = a +:+ (b +:+ c).
Proof.
  induction a as [|x a IH]; [reflexivity|].
  by rewrite !append_cons, IH.
Qed.

Lemma contains_append c (a b : string) :
  contains c (a +:+ b) = contains c a || contains c b.
Proof.
  induction a as [|x a IH]; [reflexivity|].
  rewrite append_cons. simpl. rewrite IH. by rewrite orb_assoc.
Qed.

(** A string without the separator is a single field. *)
Lemma split_no_sep sep s : contains sep s = false -> split sep s = [s].
Proof.
  induction s as [|c s IH]; simpl; [reflexivity|].
  intros [Hc Hs]%orb_false_iff. rewrite Hc, (IH Hs). reflexivity.
Qed.

(** The first separator ends the first field. *)
Lemma split_first_field sep a b :
  contains sep a = false ->
  split sep (a +:+ String sep b) = a :: split sep b.
Proof.
  induction a as [|c a IH].
  - intros _. rewrite append_nil. simpl. by rewrite Ascii.eqb_refl.
  - intros H. simpl in H. apply orb_false_iff in H as [Hc Ha].
    rewrite append_cons. simpl. rewrite Hc, (IH Ha). reflexivity.
Qed.

(** Replaces the code of a literal character by its value. *)
Ltac eval_codes :=
  repeat match goal with
         | |- context [Z.of_nat (nat_of_ascii ?c)] =>
             let v := eval vm_compute in (Z.of_nat (nat_of_ascii c)) in
             change (Z.of_nat (nat_of_ascii c)) with v
         end.

(** Reading digits after a positive value follows [Pos.of_uint_acc]. *)
Lemma int_digits_acc d p :
  int_digits (NilEmpty.string_of_uint d) (Z.pos p) true
  = Some (Z.pos (Pos.of_uint_acc d p)).
Proof.
  revert p. induction d; intros p; simpl; [reflexivity | ..]; eval_codes;
    match goal with
    | |- int_digits _ ?v true = Some (Z.pos (Pos.of_uint_acc _ ?q)) =>
        replace v with (Z.pos q) by lia; apply IHd
    end.
Qed.

Lemma int_digits_uint d :
  int_digits (NilEmpty.string_of_uint d) 0 true = Some (Z.of_uint d).
Proof.
  induction d; simpl; eval_codes; try reflexivity; try apply IHd;
    apply (int_digits_acc d).
Qed.

(** A number is read the same whether or not a digit came before it. *)
Lemma int_digits_first d :
  int_digits (NilZero.string_of_uint d) 0 false = Some (Z.of_uint d).
Proof.
  destruct d; try reflexivity; simpl; eval_codes;
    first [ apply (int_digits_uint d) | apply (int_digits_acc d) ].
Qed.

Lemma long_from_string_uint d :
  long_from_string (NilZero.string_of_uint d) = Some (Z.of_uint d).
Proof.
  rewrite <- int_digits_first. by destruct d.
Qed.

Lemma long_from_string_neg_uint d :
  long_from_string (String "-" (NilZero.string_of_uint d))
  = Some (- Z.of_uint d).
Proof.
  unfold long_from_string. simpl lstrip. cbv iota beta.
  by rewrite int_digits_first.
Qed.

Lemma all_ascii_uint d : all_ascii (NilEmpty.string_of_uint d) = true.
Proof. induction d; simpl; auto. Qed.

(** The decimal form of a number is ASCII text. *)
Lemma all_ascii_str n : all_ascii (str n) = true.
Proof.
  unfold str. destruct (Z.to_int n) as [d|d]; simpl;
    destruct d; simpl; auto using all_ascii_uint.
Qed.

(** [int(str(n)) == n] *)
Lemma int_str n : int (str n) = Some n.
Proof.
  unfold int. rewrite all_ascii_str.
  unfold str. rewrite <- (DecimalZ.of_to n) at 2.
  destruct (Z.to_int n) as [d|d]; simpl.
  - apply long_from_string_uint.
  - apply long_from_string_neg_uint.
Qed.

Lemma contains_bar_uint d : contains "|" (NilEmpty.string_of_uint d) = false.
Proof. induction d; simpl; auto. Qed.

(** The decimal form of a number has no [|] in it. *)
Lemma contains_bar_str n : contains "|" (str n) = false.
Proof.
  unfold str. destruct (Z.to_int n) as [d|d]; simpl;
    destruct d; simpl; auto using contains_bar_uint.
Qed.

Lemma getitem_in_range {A} (l : list A) (i : Z) :
  0 <= i < Z.of_nat (length l) ->
  exists x, l !! Z.to_nat i = Some x /\ getitem l i = Ok x.
Proof.
  intros Hi. unfold getitem.
  destruct (Z.ltb_spec i 0); [lia|].
  destruct (Z.ltb_spec i 0); [lia|].
  destruct (Z.leb_spec (Z.of_nat (length l)) i); [lia|]. simpl.
  destruct (lookup_lt_is_Some_2 l (Z.to_nat i)) as [x Hx]; [lia|].
  exists x. by rewrite Hx.
Qed.

Lemma getitem_from_end {A} (l : list A) (i : Z) :
  - Z.of_nat (length l) <= i <= -1 ->
  exists x, l !! Z.to_nat (Z.of_nat (length l) + i) = Some x /\ getitem l i = Ok x.
Proof.
  intros Hi. unfold getitem.
  destruct (Z.ltb_spec i 0); [|lia].
  destruct (Z.ltb_spec (i + Z.of_nat (length l)) 0); [lia|].
  destruct (Z.leb_spec (Z.of_nat (length l)) (i + Z.of_nat (length l))); [lia|].
  simpl. rewrite (Z.add_comm i).
  destruct (lookup_lt_is_Some_2 l (Z.to_nat (Z.of_nat (length l) + i)))
    as [x Hx]; [lia|].
  exists x. by rewrite Hx.
Qed.

Lemma getitem_past_end {A} (l : list A) (i : Z) :
  Z.of_nat (length l) <= i -> getitem l i = Raise IndexError.
Proof.
  intros Hi. unfold getitem.
  destruct (Z.ltb_spec i 0); [lia|].
  destruct (Z.ltb_spec i 0); [lia|].
  destruct (Z.leb_spec (Z.of_nat (length l)) i); [reflexivity | lia].
Qed.

(** Joining with one more item appends the separator and the item. *)
Lemma join_snoc sep x xs y :
  join sep ((x :: xs) ++ [y]) = join sep (x :: xs) +:+ sep +:+ y.
Proof.
  revert x. induction xs as [|z xs IH]; intros x; [reflexivity|].
  change (join sep ((x :: z :: xs) ++ [y]))
    with (x +:+ sep +:+ join sep ((z :: xs) ++ [y])).
  rewrite IH.
  change (join sep (x :: z :: xs)) with (x +:+ sep +:+ join sep (z :: xs)).
  by rewrite !append_assoc.
Qed.

End PyFacts.

(* ===================================================================== *)
(** ** The choice token                                                   *)
(* ===================================================================== *)

Section Token.

Context {unicode : UnicodeData}.

(** The token of the button at position [i] is the encoding of
    [(chapter, question id, i)]. *)
Lemma build_keyboard_token question chapter i opt :
  q_options question !! i = Some opt ->
  build_keyboard question chapter !! i
  = Some [ {| label := o_text opt;
              callback_data :=
                encode_callback_data chapter (q_id question) (Z.of_nat i) |} ].
Proof.
  intros Hopt. unfold build_keyboard.
  by rewrite list_lookup_imap, Hopt.
Qed.

Lemma split_encoded chapter qid i :
  contains "|" chapter = false ->
  split "|" (encode_callback_data chapter qid i) = [chapter; str qid; str i].
Proof.
  intros Hch. unfold encode_callback_data.
  change ("|" +:+ str qid +:+ "|" +:+ str i)
    with (String "|" (str qid +:+ String "|" (str i))).
  rewrite (split_first_field _ _ _ Hch).
  rewrite (split_first_field _ _ _ (contains_bar_str qid)).
  by rewrite (split_no_sep _ _ (contains_bar_str i)).
Qed.

(** C1. Decoding the token that the keyboard builder writes for
    [(chapter, qid, i)], a chapter name without [|] in it, gives back
    [(chapter, qid, i)]. *)
Theorem decode_encode_callback_data chapter qid i :
  contains "|" chapter = false ->
  decode_callback_data (encode_callback_data chapter qid i) = Ok (chapter, qid, i).
Proof.
  intros Hch. unfold decode_callback_data.
  rewrite (split_encoded _ _ _ Hch).
  by rewrite !int_str.
Qed.

End Token.

Section TokenExamples.

#[local] Existing Instance sample_unicode.

Lemma decode_encode_callback_data_witness :
  contains "|" "ch1" = false /\
  decode_callback_data (encode_callback_data "ch1" 17 (-2)) = Ok ("ch1", 17, -2).
Proof.
  split; [reflexivity|].
  apply (decode_encode_callback_data "ch1" 17 (-2)). reflexivity.
Defined.

(** Without the condition on the chapter name the fields shift. *)
Example decode_chapter_with_bar :
  decode_callback_data (encode_callback_data "a|b" 1 2) = Raise ValueError.
Proof. reflexivity. Qed.

(** Digits outside ASCII are digits for [int()]: a token with a fullwidth
    digit decodes. *)
Example decode_fullwidth_digit :
  decode_callback_data "ch1|１|0" = Ok ("ch1", 1, 0).
Proof. reflexivity. Qed.

Example int_unicode :
  int "１２" = Some 12 /\ int " -٤ " = Some (-4) /\ int "１x" = None
  /\ int "1_２" = Some 12 /\ int "¹" = None.
Proof. by vm_compute. Qed.

End TokenExamples.

(* ===================================================================== *)
(** ** The result renderer                                                *)
(* ===================================================================== *)

Section Renderer.

Variable question : Question.

Lemma correct_index_first i :
  correct_index question = Some i <-> first_correct question i.
Proof.
  unfold correct_index, first_correct. split.
  - intros Hfind. apply fmap_Some in Hfind as [[j o] [Hfind Hi]].
    simpl in Hi. subst j.
    apply list_find_Some in Hfind as (Ho & Hc & Hbefore). eauto.
  - intros [(o & Ho & Hc) Hbefore].
    apply fmap_Some. exists (i, o). split; [|reflexivity].
    apply list_find_Some. eauto.
Qed.

Lemma correct_index_none :
  correct_index question = None <-> none_correct question.
Proof.
  unfold correct_index, none_correct.
  rewrite fmap_None. apply list_find_None.
Qed.

Lemma marks_distinct :
  mark_correct <> mark_wrong /\ mark_correct <> mark_neutral
  /\ mark_wrong <> mark_neutral.
Proof. repeat split; discriminate. Qed.

Lemma prefix_correct ci sel i : prefix ci sel i = mark_correct <-> ci = Some i.
Proof.
  unfold prefix.
  destruct (decide (Some i = ci)), (decide (Z.of_nat i = sel));
    split; intros H';
    first [ discriminate H' | reflexivity | congruence
          | by destruct H' | by split ].
Qed.

Lemma prefix_wrong ci sel i :
  prefix ci sel i = mark_wrong <-> Z.of_nat i = sel /\ ci <> Some i.
Proof.
  unfold prefix.
  destruct (decide (Some i = ci)), (decide (Z.of_nat i = sel));
    split; intros H';
    first [ discriminate H' | reflexivity | congruence
          | by destruct H' | by split ].
Qed.

Lemma prefix_neutral ci sel i :
  prefix ci sel i = mark_neutral <-> Z.of_nat i <> sel /\ ci <> Some i.
Proof.
  unfold prefix.
  destruct (decide (Some i = ci)), (decide (Z.of_nat i = sel));
    split; intros H';
    first [ discriminate H' | reflexivity | congruence
          | by destruct H' | by split ].
Qed.

Lemma option_lines_lookup sel i opt :
  q_options question !! i = Some opt ->
  option_lines question sel !! i
  = Some (prefix (correct_index question) sel i +:+ " " +:+ o_text opt).
Proof.
  intros Hopt. unfold option_lines. by rewrite list_lookup_imap, Hopt.
Qed.

Lemma length_option_lines sel :
  length (option_lines question sel) = length (q_options question).
Proof. apply length_imap. Qed.

(** C2. For an index within the options, the text is the header, one line
    for each option in the order of the options, and the explanation line.
    The line of an option is its mark, a space and its text; the mark is the
    check mark exactly at the first option whose "correct" field is true, the
    cross exactly at the selected option when that is not the correct one,
    and the neutral mark exactly elsewhere.  When no option is marked
    correct, no line has the check mark. *)
Theorem format_result_text_marks (selected_index : Z) :
  0 <= selected_index < Z.of_nat (length (q_options question)) ->
  exists header expl,
    format_result_text question selected_index
    = Ok (join nl (header :: option_lines question selected_index
                     ++ [explanation_line expl]))
    /\ length (option_lines question selected_index)
       = length (q_options question)
    /\ forall i opt,
         q_options question !! i = Some opt ->
         exists mark,
           option_lines question selected_index !! i
           = Some (mark +:+ " " +:+ o_text opt)
           /\ (mark = mark_correct <-> first_correct question i)
           /\ (mark = mark_wrong <->
                Z.of_nat i = selected_index /\ ~ first_correct question i)
           /\ (mark = mark_neutral <->
                Z.of_nat i <> selected_index /\ ~ first_correct question i)
           /\ (none_correct question -> mark <> mark_correct).
Proof.
  intros Hsel.
  destruct (getitem_in_range _ _ Hsel) as (selected & _ & Hget).
  eexists _, (default "" (o_explanation selected)). split; [|split].
  - unfold format_result_text. rewrite Hget. reflexivity.
  - apply length_option_lines.
  - intros i opt Hopt.
    exists (prefix (correct_index question) selected_index i).
    split; [by apply option_lines_lookup|].
    rewrite <- correct_index_first.
    split; [apply prefix_correct|].
    split; [apply prefix_wrong|].
    split; [apply prefix_neutral|].
    intros Hnone%correct_index_none. rewrite prefix_correct, Hnone. discriminate.
Qed.

(** C3. An index at or past the end of the options raises [IndexError]
    (the renderer's invalid-selection error): no text is returned. *)
Theorem format_result_text_past_end (selected_index : Z) :
  Z.of_nat (length (q_options question)) <= selected_index ->
  format_result_text question selected_index = Raise IndexError.
Proof.
  intros Hsel. unfold format_result_text.
  by rewrite (getitem_past_end _ _ Hsel).
Qed.

(** What the renderer returns when the subscript finds an option: the
    header, the option lines and, after an empty line, the light bulb with
    the explanation of that option. *)
Lemma format_result_text_selected (selected_index : Z) selected :
  getitem (q_options question) selected_index = Ok selected ->
  format_result_text question selected_index
  = Ok (join nl (("<b>❓ " +:+ q_question question +:+ "</b>" +:+ nl)
                   :: option_lines question selected_index
                   ++ [nl +:+ "💡 " +:+
                       match o_explanation selected with
                       | Some expl => expl
                       | None => ""
                       end])).
Proof.
  intros Hget. unfold format_result_text. rewrite Hget.
  by destruct (o_explanation selected).
Qed.

(** C4. For an index within the options, the text is the header and the
    option lines followed by a line break, an empty line, and the line made
    of the light bulb, a space and the explanation of the selected option,
    or nothing after the space when that option has no explanation. *)
Theorem format_result_text_explanation (selected_index : Z) :
  0 <= selected_index < Z.of_nat (length (q_options question)) ->
  exists selected,
    q_options question !! Z.to_nat selected_index = Some selected
    /\ format_result_text question selected_index
       = Ok (join nl (("<b>❓ " +:+ q_question question +:+ "</b>" +:+ nl)
                        :: option_lines question selected_index)
             +:+ nl +:+ nl +:+ "💡 " +:+
             match o_explanation selected with
             | Some expl => expl
             | None => ""
             end).
Proof.
  intros Hsel.
  destruct (getitem_in_range _ _ Hsel) as (selected & Hlook & Hget).
  exists selected. split; [exact Hlook|].
  rewrite (format_result_text_selected _ _ Hget). f_equal.
  exact (join_snoc nl _ (option_lines question selected_index) _).
Qed.

(** C10. An index from [-len(options)] to [-1] is accepted: the text is
    returned, no option line has the cross, and the last line is the light
    bulb with the explanation of the option at position
    [len(options) + selected_index]. *)
Theorem format_result_text_negative_index (selected_index : Z) :
  - Z.of_nat (length (q_options question)) <= selected_index <= -1 ->
  exists selected,
    q_options question
      !! Z.to_nat (Z.of_nat (length (q_options question)) + selected_index)
    = Some selected
    /\ format_result_text question selected_index
       = Ok (join nl (("<b>❓ " +:+ q_question question +:+ "</b>" +:+ nl)
                        :: option_lines question selected_index
                        ++ [nl +:+ "💡 " +:+
                            match o_explanation selected with
                            | Some expl => expl
                            | None => ""
                            end]))
    /\ forall i opt,
         q_options question !! i = Some opt ->
         exists mark,
           option_lines question selected_index !! i
           = Some (mark +:+ " " +:+ o_text opt)
           /\ mark <> mark_wrong.
Proof.
  intros Hsel.
  destruct (getitem_from_end _ _ Hsel) as (selected & Hlook & Hget).
  exists selected. split; [exact Hlook|]. split.
  - by apply format_result_text_selected.
  - intros i opt Hopt.
    exists (prefix (correct_index question) selected_index i).
    split; [by apply option_lines_lookup|].
    rewrite prefix_wrong. intros [Hi _]. lia.
Qed.

End Renderer.

Lemma format_result_text_marks_witness :
  0 <= 0 < Z.of_nat (length (q_options example_question)) /\
  exists header expl,
    format_result_text example_question 0
    = Ok (join nl (header :: option_lines example_question 0
                     ++ [explanation_line expl])).
Proof.
  split; [by vm_compute|].
  destruct (format_result_text_marks example_question 0)
    as (header & expl & Hfmt & _); [by vm_compute|].
  exists header, expl. exact Hfmt.
Defined.

Lemma format_result_text_past_end_witness :
  Z.of_nat (length (q_options example_question)) <= 3 /\
  format_result_text example_question 3 = Raise IndexError.
Proof.
  split; [by vm_compute|].
  apply (format_result_text_past_end example_question 3). by vm_compute.
Defined.

Lemma format_result_text_explanation_witness :
  0 <= 1 < Z.of_nat (length (q_options example_question))
  /\ format_result_text example_question 1
     = Ok (join nl (("<b>❓ 2+2=?</b>" +:+ nl)
                      :: option_lines example_question 1)
           +:+ nl +:+ nl +:+ "💡 basic addition").
Proof.
  split; [by vm_compute|].
  destruct (format_result_text_explanation example_question 1)
    as (selected & Hselected & Htext); [by vm_compute|].
  injection Hselected as <-. exact Htext.
Defined.

Lemma format_result_text_negative_index_witness :
  - Z.of_nat (length (q_options example_question)) <= -2 <= -1
  /\ format_result_text example_question (-2)
     = Ok (join nl (("<b>❓ 2+2=?</b>" +:+ nl)
                      :: option_lines example_question (-2)
                      ++ [nl +:+ "💡 basic addition"])).
Proof.
  split; [by vm_compute|].
  destruct (format_result_text_negative_index example_question (-2))
    as (selected & Hselected & Htext & _); [by vm_compute|].
  injection Hselected as <-. exact Htext.
Defined.

(** The worked example: the second option is the correct one. *)
Example render_correct_pick :
  format_result_text example_question 1
  = Ok (join nl [ "<b>❓ 2+2=?</b>" +:+ nl;
                  mark_neutral +:+ " 3";
                  mark_correct +:+ " 4";
                  mark_neutral +:+ " 5";
                  nl +:+ "💡 basic addition" ]).
Proof. reflexivity. Qed.

Example render_wrong_pick :
  format_result_text example_question 0
  = Ok (join nl [ "<b>❓ 2+2=?</b>" +:+ nl;
                  mark_wrong +:+ " 3";
                  mark_correct +:+ " 4";
                  mark_neutral +:+ " 5";
                  nl +:+ "💡 " ]).
Proof. reflexivity. Qed.

Example render_last_by_negative_index :
  format_result_text example_question (-1)
  = Ok (join nl [ "<b>❓ 2+2=?</b>" +:+ nl;
                  mark_neutral +:+ " 3";
                  mark_correct +:+ " 4";
                  mark_neutral +:+ " 5";
                  nl +:+ "💡 " ]).
Proof. reflexivity. Qed.

(* ===================================================================== *)
(** ** The question store                                                 *)
(* ===================================================================== *)

Section Store.

Variable cfg : Config.
Variable w : World.

Lemma rstrip_slash_append_slash base :
  exists c rest, rstrip_slash base +:+ "/" = String c rest.
Proof. destruct (rstrip_slash base); simpl; eauto. Qed.

(** The base is empty exactly when the variable is unset or empty. *)
Lemma GITHUB_RAW_BASE_empty :
  GITHUB_RAW_BASE cfg = ""
  <-> GITHUB_RAW_BASE_env cfg = None \/ GITHUB_RAW_BASE_env cfg = Some "".
Proof.
  unfold GITHUB_RAW_BASE.
  destruct (GITHUB_RAW_BASE_env cfg) as [[|c base]|]; [by split; auto | | by split; auto].
  destruct (rstrip_slash_append_slash (String c base)) as (c' & rest & ->).
  split; [discriminate | by intros [|]].
Qed.

Lemma GITHUB_RAW_BASE_set base :
  GITHUB_RAW_BASE_env cfg = Some base -> base <> "" ->
  GITHUB_RAW_BASE cfg = rstrip_slash base +:+ "/".
Proof.
  intros Henv Hne. unfold GITHUB_RAW_BASE. rewrite Henv.
  by destruct base.
Qed.

(** The local file is there: it is opened and parsed, nothing is fetched. *)
Lemma load_questions_local chapter d t :
  local_files w (chapter +:+ ".json") = Some d ->
  load_questions cfg w chapter t
  = (match d with
     | Parsed questions => Ok questions
     | Unparsable => Raise JSONDecodeError
     end,
     t ++ [EExists (chapter +:+ ".json"); EOpen (chapter +:+ ".json")]).
Proof.
  intros Hfile.
  unfold load_questions, bind, local_exists, open_json_load.
  rewrite Hfile. rewrite bool_decide_eq_true_2 by eauto.
  by rewrite <- app_assoc.
Qed.

(** No local file, a remote base: one GET of base/chapter.json. *)
Lemma load_questions_remote chapter base t :
  local_files w (chapter +:+ ".json") = None ->
  GITHUB_RAW_BASE_env cfg = Some base -> base <> "" ->
  load_questions cfg w chapter t
  = (match remote w (rstrip_slash base +:+ "/" +:+ chapter +:+ ".json") with
     | NoResponse e => Raise e
     | Response status_code body =>
         if (400 <=? status_code) && (status_code <? 600) then Raise HTTPError
         else response_json body
     end,
     t ++ [EExists (chapter +:+ ".json");
           EGet (rstrip_slash base +:+ "/" +:+ chapter +:+ ".json")]).
Proof.
  intros Hfile Henv Hne.
  unfold load_questions, bind, local_exists.
  rewrite Hfile. rewrite bool_decide_eq_false_2 by (intros [? ?]; discriminate).
  rewrite (GITHUB_RAW_BASE_set _ Henv Hne).
  rewrite <- !(append_assoc (rstrip_slash base) "/").
  destruct (rstrip_slash_append_slash base) as (c & rest & ->).
  unfold requests_get, lift, raise_for_status.
  rewrite <- app_assoc. simpl.
  destruct (remote w _) as [e|status_code body]; [reflexivity|]. simpl.
  by destruct ((400 <=? status_code) && (status_code <? 600)).
Qed.

(** No local file and no remote base: [FileNotFoundError]. *)
Lemma load_questions_missing chapter t :
  local_files w (chapter +:+ ".json") = None ->
  GITHUB_RAW_BASE cfg = "" ->
  load_questions cfg w chapter t
  = (Raise FileNotFoundError, t ++ [EExists (chapter +:+ ".json")]).
Proof.
  intros Hfile Hbase.
  unfold load_questions, bind, local_exists.
  rewrite Hfile. rewrite bool_decide_eq_false_2 by (intros [? ?]; discriminate).
  by rewrite Hbase.
Qed.

(** C5. [load_questions] looks for the local file [<chapter>.json] first.
    If it exists, its parsed contents are the result and no request is made.
    If it does not and a remote base is configured, [<base>/<chapter>.json]
    is requested once (the base taken without its trailing slashes); a
    response with a 4xx or 5xx status raises [HTTPError] (the remote fetch
    error), any other response gives its parsed body.  If it does not and no
    remote base is configured, [FileNotFoundError] (the not-found error) is
    raised. *)
Theorem load_questions_sources chapter t :
  (forall d,
      local_files w (chapter +:+ ".json") = Some d ->
      load_questions cfg w chapter t
      = (match d with
         | Parsed questions => Ok questions
         | Unparsable => Raise JSONDecodeError
         end,
         t ++ [EExists (chapter +:+ ".json"); EOpen (chapter +:+ ".json")]))
  /\ (forall base status_code body,
        local_files w (chapter +:+ ".json") = None ->
        GITHUB_RAW_BASE_env cfg = Some base -> base <> "" ->
        remote w (rstrip_slash base +:+ "/" +:+ chapter +:+ ".json")
        = Response status_code body ->
        load_questions cfg w chapter t
        = (if (400 <=? status_code) && (status_code <? 600)
           then Raise HTTPError
           else response_json body,
           t ++ [EExists (chapter +:+ ".json");
                 EGet (rstrip_slash base +:+ "/" +:+ chapter +:+ ".json")]))
  /\ (local_files w (chapter +:+ ".json") = None ->
      GITHUB_RAW_BASE_env cfg = None \/ GITHUB_RAW_BASE_env cfg = Some "" ->
      load_questions cfg w chapter t
      = (Raise FileNotFoundError, t ++ [EExists (chapter +:+ ".json")])).
Proof.
  split; [|split].
  - intros d Hfile. by apply load_questions_local.
  - intros base status_code body Hfile Henv Hne Hresp.
    rewrite (load_questions_remote _ _ _ Hfile Henv Hne). by rewrite Hresp.
  - intros Hfile Hbase%GITHUB_RAW_BASE_empty. by apply load_questions_missing.
Qed.

End Store.

Lemma load_questions_sources_witness :
  load_questions example_config example_world "ch1" []
  = (Ok [example_question], [EExists "ch1.json"; EOpen "ch1.json"])
  /\ load_questions example_config example_world "ch2" []
     = (Ok [remote_question],
        [EExists "ch2.json"; EGet "https://example.org/bank/ch2.json"])
  /\ load_questions example_config example_world "ch3" []
     = (Raise HTTPError,
        [EExists "ch3.json"; EGet "https://example.org/bank/ch3.json"])
  /\ load_questions offline_config example_world "ch2" []
     = (Raise FileNotFoundError, [EExists "ch2.json"]).
Proof.
  split; [|split; [|split]].
  - destruct (load_questions_sources example_config example_world "ch1" [])
      as (Hlocal & _ & _).
    exact (Hlocal (Parsed [example_question]) eq_refl).
  - destruct (load_questions_sources example_config example_world "ch2" [])
      as (_ & Hremote & _).
    refine (Hremote "https://example.org/bank/" 200 (Parsed [remote_question])
              eq_refl eq_refl _ eq_refl).
    discriminate.
  - destruct (load_questions_sources example_config example_world "ch3" [])
      as (_ & Hremote & _).
    refine (Hremote "https://example.org/bank/" 404 Unparsable
              eq_refl eq_refl _ eq_refl).
    discriminate.
  - destruct (load_questions_sources offline_config example_world "ch2" [])
      as (_ & _ & Hmissing).
    exact (Hmissing eq_refl (or_introl eq_refl)).
Defined.

(* ===================================================================== *)
(** ** The callback handler                                               *)
(* ===================================================================== *)

Section Callback.

Context {unicode : UnicodeData}.

Variable cfg : Config.
Variable w : World.

Lemma decode_callback_data_malformed data :
  malformed data -> decode_callback_data data = Raise ValueError.
Proof.
  unfold malformed, decode_callback_data.
  intros [Hlen | (chapter & qid & opt_index & -> & Hint)].
  - destruct (split "|" data) as [|a [|b [|c [|d fields]]]]; simpl in Hlen;
      first [ reflexivity | lia ].
  - destruct Hint as [-> | Hopt]; [reflexivity|].
    rewrite Hopt. by destruct (int qid).
Qed.

Lemma decode_callback_data_fields data chapter qid opt_index :
  decode_callback_data data = Ok (chapter, qid, opt_index) ->
  exists f2 f3,
    split "|" data = [chapter; f2; f3]
    /\ int f2 = Some qid /\ int f3 = Some opt_index.
Proof.
  unfold decode_callback_data.
  destruct (split "|" data) as [|a [|b [|c [|d fields]]]]; try discriminate.
  destruct (int b) as [x|] eqn:Hb; [|discriminate].
  destruct (int c) as [y|] eqn:Hc; [|discriminate].
  intros [= -> -> ->]. eauto.
Qed.



End Callback.

Section CallbackExamples.

#[local] Existing Instance sample_unicode.



(** Too few fields, too many fields, a field that is not a number. *)
Example malformed_two_fields : malformed "ch1|1".
Proof. left. by vm_compute. Qed.

Example malformed_four_fields : malformed "a|b|1|2".
Proof. left. by vm_compute. Qed.

(** The stale token of the worked example is answered from the bank. *)
Example answer_callback_reveal :
  answer_callback example_config example_world "ch1|1|1" []
  = (Ok tt,
     [EAnswer; EExists "ch1.json"; EOpen "ch1.json";
      EEditMessageText
        (join nl [ "<b>❓ 2+2=?</b>" +:+ nl;
                   mark_neutral +:+ " 3";
                   mark_correct +:+ " 4";
                   mark_neutral +:+ " 5";
                   nl +:+ "💡 basic addition" ])
        (Some "HTML")]).
Proof. reflexivity. Qed.

End CallbackExamples.

(* ===================================================================== *)
(** ** The selector and the dispatcher                                    *)
(* ===================================================================== *)

Section Dispatcher.

Variable cfg : Config.
Variable w : World.

Lemma for_range_ext (body1 body2 : M unit) :
  (forall t, body1 t = body2 t) ->
  forall n t, for_range n body1 t = for_range n body2 t.
Proof.
  intros Hbody n. induction n as [|n IH]; intros t; [reflexivity|].
  simpl. unfold bind. rewrite Hbody.
  destruct (body2 t) as [[[]|e] t']; [apply IH | reflexivity].
Qed.

Lemma pick_chapter_not_random first rest t :
  MODE cfg <> "random" -> CHAPTERS cfg = first :: rest ->
  pick_chapter cfg w t = (Ok first, t).
Proof.
  intros Hmode Hchapters. unfold pick_chapter.
  apply String.eqb_neq in Hmode. rewrite Hmode, Hchapters. reflexivity.
Qed.

(** C8. With a mode other than "random", "sequential" included, every pick
    is the first configured chapter: the run sends all its questions from
    that chapter and never moves to the next one. *)
Theorem send_questions_not_random first rest :
  MODE cfg <> "random" -> CHAPTERS cfg = first :: rest ->
  (forall t, pick_chapter cfg w t = (Ok first, t))
  /\ (forall t,
        send_questions cfg w t
        = for_range (Z.to_nat (Z.max 1 (QUESTIONS_PER_RUN cfg)))
            (send_one_question cfg w first ;; emit ESleep) t).
Proof.
  intros Hmode Hchapters.
  split; [intros t; by eapply pick_chapter_not_random|].
  intros t. unfold send_questions. apply for_range_ext. clear t. intros t.
  unfold send_questions_step, bind at 1.
  by rewrite (pick_chapter_not_random _ _ _ Hmode Hchapters).
Qed.

(** Loading records the lookup of the local file and then only calls. *)
Lemma load_questions_calls chapter t :
  exists r calls,
    load_questions cfg w chapter t
    = (r, t ++ EExists (chapter +:+ ".json") :: calls)
    /\ Forall is_call calls.
Proof.
  unfold load_questions, bind, local_exists.
  destruct (local_files w (chapter +:+ ".json")) as [d|] eqn:Hfile.
  - rewrite bool_decide_eq_true_2 by eauto.
    unfold open_json_load. rewrite Hfile.
    eexists _, [EOpen _]. rewrite <- app_assoc. split; [reflexivity|].
    by repeat constructor.
  - rewrite bool_decide_eq_false_2 by (intros [? ?]; discriminate).
    destruct (GITHUB_RAW_BASE cfg) as [|c base].
    + eexists _, []. split; [reflexivity | constructor].
    + unfold requests_get, lift.
      destruct (remote w _) as [e|status_code body]; simpl.
      * eexists _, [EGet _]. rewrite <- app_assoc. split; [reflexivity|].
        by repeat constructor.
      * destruct (raise_for_status status_code) as [[]|e];
          eexists _, [EGet _]; rewrite <- app_assoc;
          (split; [reflexivity | by repeat constructor]).
Qed.

(** Whatever the [try] block does, [send_one_question] returns normally,
    having logged either the question sent or the exception caught. *)
Lemma send_one_question_logged chapter t :
  exists calls log,
    send_one_question cfg w chapter t = (Ok tt, t ++ calls ++ [log])
    /\ Forall is_call calls
    /\ EExists (chapter +:+ ".json") ∈ calls
    /\ ((exists msg, log = ELogInfo msg)
        \/ (exists e,
              log = ELogException
                      ("Failed to send question for chapter " +:+ chapter) e)).
Proof.
  destruct (load_questions_calls chapter t) as (r & calls & Hload & Hcalls).
  unfold send_one_question, try_except, send_one_question_try, bind.
  rewrite Hload. destruct r as [questions|e].
  - unfold random_choice.
    destruct (questions !! _) as [q|].
    + unfold api_call, emit.
      destruct (telegram w _) as [e|].
      * eexists (_ :: calls ++ [_; _]), _. split; [|split; [|split]].
        -- rewrite <- !app_assoc. simpl. rewrite <- !app_assoc. reflexivity.
        -- constructor; [done|]. apply Forall_app. split; [done|].
           by repeat constructor.
        -- left.
        -- right. eauto.
      * eexists (_ :: calls ++ [_; _]), _. split; [|split; [|split]].
        -- rewrite <- !app_assoc. simpl. rewrite <- !app_assoc. reflexivity.
        -- constructor; [done|]. apply Forall_app. split; [done|].
           by repeat constructor.
        -- left.
        -- left. eauto.
    + unfold emit. eexists (_ :: calls), _. split; [|split; [|split]].
      * rewrite <- !app_assoc. reflexivity.
      * by constructor.
      * left.
      * right. eauto.
  - unfold emit. eexists (_ :: calls), _. split; [|split; [|split]].
    + rewrite <- !app_assoc. reflexivity.
    + by constructor.
    + left.
    + right. eauto.
Qed.

(** With at least one chapter configured the pick cannot fail. *)
Lemma pick_chapter_ok t :
  CHAPTERS cfg <> [] ->
  exists chapter picks,
    pick_chapter cfg w t = (Ok chapter, t ++ picks)
    /\ chapter ∈ CHAPTERS cfg
    /\ Forall is_call picks.
Proof.
  intros Hne. unfold pick_chapter.
  destruct (String.eqb (MODE cfg) "random").
  - unfold random_choice.
    destruct (lookup_lt_is_Some_2 (CHAPTERS cfg)
                (draw w (length t) `mod` length (CHAPTERS cfg))%nat)
      as [chapter Hchapter].
    { apply Nat.mod_upper_bound. by destruct (CHAPTERS cfg). }
    rewrite Hchapter. eexists chapter, [_]. split; [reflexivity|].
    split; [by eapply list_elem_of_lookup_2 | by repeat constructor].
  - destruct (CHAPTERS cfg) as [|first rest]; [done|].
    exists first, []. rewrite app_nil_r. split; [reflexivity|].
    split; [left | constructor].
Qed.

Lemma send_questions_step_iteration t :
  CHAPTERS cfg <> [] ->
  exists segment,
    send_questions_step cfg w t = (Ok tt, t ++ segment)
    /\ iteration (CHAPTERS cfg) segment.
Proof.
  intros Hne.
  destruct (pick_chapter_ok t Hne) as (chapter & picks & Hpick & Hin & Hpicks).
  destruct (send_one_question_logged chapter (t ++ picks))
    as (calls & log & Hsend & Hcalls & Hexists & Hlog).
  exists ((picks ++ calls) ++ [log; ESleep]). split.
  - unfold send_questions_step, bind, emit. rewrite Hpick, Hsend.
    f_equal. rewrite <- !app_assoc. reflexivity.
  - assert (Forall is_call (picks ++ calls)) by (by apply Forall_app).
    assert (EExists (chapter +:+ ".json") ∈ picks ++ calls)
      by (apply elem_of_app; by right).
    destruct Hlog as [[msg ->] | [e ->]].
    + by eapply iteration_sent.
    + by eapply iteration_failed.
Qed.

Lemma for_range_iterations n :
  CHAPTERS cfg <> [] ->
  forall t,
  exists segments,
    for_range n (send_questions_step cfg w) t = (Ok tt, t ++ concat segments)
    /\ length segments = n
    /\ Forall (iteration (CHAPTERS cfg)) segments.
Proof.
  intros Hne. induction n as [|n IH]; intros t.
  - exists []. simpl. rewrite app_nil_r. by repeat split.
  - destruct (send_questions_step_iteration t Hne) as (segment & Hstep & Hiter).
    destruct (IH (t ++ segment)) as (segments & Hrest & Hlen & Hiters).
    exists (segment :: segments). split; [|split].
    + simpl. unfold bind. rewrite Hstep, Hrest. by rewrite <- app_assoc.
    + simpl. by rewrite Hlen.
    + by constructor.
Qed.

(** An exception of the [try] block is logged and not raised again. *)
Lemma send_one_question_catches chapter e t t' :
  send_one_question_try cfg w chapter t = (Raise e, t') ->
  send_one_question cfg w chapter t
  = (Ok tt,
     t' ++ [ELogException
              ("Failed to send question for chapter " +:+ chapter) e]).
Proof.
  intros Htry. unfold send_one_question, try_except. by rewrite Htry.
Qed.

(** One pass through the body of the loop is one iteration. *)
Lemma send_questions_step_send_iteration t :
  CHAPTERS cfg <> [] ->
  exists t',
    send_questions_step cfg w t = (Ok tt, t')
    /\ send_iteration cfg w t t'.
Proof.
  intros Hne.
  destruct (pick_chapter_ok t Hne) as (chapter & picks & Hpick & Hin & _).
  unfold send_questions_step, bind. rewrite Hpick.
  unfold send_one_question, try_except, send_one_question_try, bind.
  destruct (load_questions cfg w chapter (t ++ picks))
    as [[questions|e] t1] eqn:Hload.
  - destruct (length questions) as [|n] eqn:Hlen.
    + apply nil_length_inv in Hlen. subst questions.
      unfold random_choice, emit. simpl lookup. cbv iota beta.
      eexists. split; [reflexivity|]. rewrite <- app_assoc.
      by eapply iteration_bank_empty.
    + destruct (lookup_lt_is_Some_2 questions
                  (draw w (length t1) `mod` length questions)%nat)
        as [q Hq]; [apply Nat.mod_upper_bound; lia|].
      unfold random_choice. rewrite Hq.
      unfold api_call, emit. rewrite length_app.
      change (length [EChoice (length questions)]) with 1%nat.
      replace (length t1 + 1)%nat with (S (length t1)) by lia.
      destruct (telegram w (S (length t1))) as [e|] eqn:Hsend;
        (eexists; split; [reflexivity|]); rewrite <- !app_assoc.
      * by eapply (iteration_message_refused cfg w t chapter _ questions).
      * by eapply (iteration_message_sent cfg w t chapter _ questions).
  - unfold emit. eexists. split; [reflexivity|]. rewrite <- app_assoc.
    by eapply iteration_load_raised.
Qed.

Lemma for_range_send_iterations n :
  CHAPTERS cfg <> [] ->
  forall t,
  exists t',
    for_range n (send_questions_step cfg w) t = (Ok tt, t')
    /\ send_iterations cfg w n t t'.
Proof.
  intros Hne. induction n as [|n IH]; intros t.
  - exists t. split; [reflexivity | constructor].
  - destruct (send_questions_step_send_iteration t Hne)
      as (t1 & Hstep & Hiter).
    destruct (IH t1) as (t2 & Hrest & Hiters).
    exists t2. split; [|by econstructor].
    simpl. unfold bind. by rewrite Hstep.
Qed.

(** C9. A run makes exactly [max(1, QUESTIONS_PER_RUN)] iterations and
    returns normally.  Each iteration picks and loads a chapter and, if the
    bank loads and is not empty, draws a question and hands one message to
    the Telegram API; it ends with one log entry, of the question sent or of
    the exception raised while loading, choosing or sending, and the pause.
    An exception of the [try] block is caught and logged by
    [send_one_question], so it does not keep the next iterations from
    running. *)
Theorem send_questions_iterations t :
  CHAPTERS cfg <> [] ->
  (exists t',
      send_questions cfg w t = (Ok tt, t')
      /\ send_iterations cfg w
           (Z.to_nat (Z.max 1 (QUESTIONS_PER_RUN cfg))) t t')
  /\ (forall chapter e t0 t1,
        send_one_question_try cfg w chapter t0 = (Raise e, t1) ->
        send_one_question cfg w chapter t0
        = (Ok tt,
           t1 ++ [ELogException
                    ("Failed to send question for chapter " +:+ chapter) e])).
Proof.
  intros Hne. split.
  - by apply for_range_send_iterations.
  - apply send_one_question_catches.
Qed.

End Dispatcher.

Lemma send_questions_not_random_witness :
  MODE sequential_config <> "random"
  /\ pick_chapter sequential_config example_world [ESleep] = (Ok "ch1", [ESleep]).
Proof.
  assert (MODE sequential_config <> "random") as Hmode by discriminate.
  split; [exact Hmode|].
  destruct (send_questions_not_random sequential_config example_world
              "ch1" ["ch2"] Hmode eq_refl) as [Hpick _].
  apply Hpick.
Defined.

Lemma send_questions_iterations_witness :
  CHAPTERS example_config <> []
  /\ (exists t',
        send_questions example_config example_world [] = (Ok tt, t')
        /\ send_iterations example_config example_world 3 [] t')
  /\ send_one_question example_config example_world "ch3" []
     = (Ok tt,
        [EExists "ch3.json"; EGet "https://example.org/bank/ch3.json";
         ELogException "Failed to send question for chapter ch3" HTTPError]).
Proof.
  assert (CHAPTERS example_config <> []) as Hne by discriminate.
  split; [exact Hne|].
  destruct (send_questions_iterations example_config example_world [] Hne)
    as (Hrun & Hcatch).
  split; [exact Hrun|].
  exact (Hcatch "ch3" HTTPError []
           [EExists "ch3.json"; EGet "https://example.org/bank/ch3.json"]
           eq_refl).
Defined.

(** A configured count of zero still sends one question. *)
Example send_questions_clamped :
  send_questions offline_config example_world []
  = (Ok tt,
     [EChoice 1; EExists "ch1.json"; EOpen "ch1.json"; EChoice 1;
      ESendMessage "-1001"
        ("📚 <b>ch1</b>" +:+ nl +:+ nl +:+ "❓ 2+2=?") "HTML"
        (build_keyboard example_question "ch1");
      ELogInfo "Sent question id=1 from chapter=ch1";
      ESleep]).
Proof. reflexivity. Qed.

(** A run of three in which the second send times out: the failure is
    logged and the third question is sent. *)
Example send_questions_second_send_fails :
  filter (fun ev => negb (is_call ev))
         (send_questions example_config example_world []).2
  = [ ELogInfo "Sent question id=1 from chapter=ch1"; ESleep;
      ELogException "Failed to send question for chapter ch2"
        (LibraryError "TimedOut"); ESleep;
      ELogInfo "Sent question id=1 from chapter=ch1"; ESleep ].
Proof. vm_compute. reflexivity. Qed.

(* ===================================================================== *)
(** ** More on the choice token and the keyboard                          *)
(* ===================================================================== *)

Section TokenShape.

Context {unicode : UnicodeData}.

Lemma split_nonempty sep s : (1 <= length (split sep s))%nat.
Proof.
  destruct s as [|c s]; simpl; [lia|].
  destruct (Ascii.eqb c sep); simpl; [lia|].
  destruct (split sep s); simpl; lia.
Qed.

Lemma length_split_cons sep c s :
  length (split sep (String c s))
  = if Ascii.eqb c sep then S (length (split sep s)) else length (split sep s).
Proof.
  simpl. destruct (Ascii.eqb c sep); [reflexivity|].
  pose proof (split_nonempty sep s).
  destruct (split sep s); simpl in *; [lia | reflexivity].
Qed.

(** The fields of a concatenation: the last field of the first part and the
    first field of the second are one field. *)
Lemma length_split_append sep a b :
  (length (split sep (a +:+ b)) + 1
   = length (split sep a) + length (split sep b))%nat.
Proof.
  induction a as [|c a IH].
  - rewrite append_nil. simpl. lia.
  - rewrite append_cons, !length_split_cons.
    destruct (Ascii.eqb c sep); lia.
Qed.

(** A string with the separator in it has at least two fields. *)
Lemma length_split_contains sep s :
  contains sep s = true -> (2 <= length (split sep s))%nat.
Proof.
  induction s as [|c s IH]; [discriminate|].
  rewrite length_split_cons. simpl.
  pose proof (split_nonempty sep s).
  destruct (Ascii.eqb c sep); simpl; [lia | exact IH].
Qed.

Lemma length_split_encoded chapter qid i :
  (length (split "|" (encode_callback_data chapter qid i))
   = length (split "|" chapter) + 2)%nat.
Proof.
  unfold encode_callback_data.
  pose proof (length_split_append "|" chapter
                ("|" +:+ str qid +:+ "|" +:+ str i)) as Happ.
  change ("|" +:+ str qid +:+ "|" +:+ str i)
    with (String "|" (str qid +:+ String "|" (str i))) in *.
  rewrite length_split_cons in Happ. simpl Ascii.eqb in Happ.
  rewrite (split_first_field _ _ _ (contains_bar_str qid)) in Happ.
  rewrite (split_no_sep _ _ (contains_bar_str i)) in Happ.
  simpl in Happ. lia.
Qed.

(** A chapter name with [|] in it makes every token of its buttons
    undecodable: the data has more than three fields. *)
Theorem encode_callback_data_bar_in_chapter chapter qid i :
  contains "|" chapter = true ->
  malformed (encode_callback_data chapter qid i)
  /\ decode_callback_data (encode_callback_data chapter qid i)
     = Raise ValueError.
Proof.
  intros Hbar%(length_split_contains "|").
  assert (malformed (encode_callback_data chapter qid i)) as Hbad.
  { left. rewrite length_split_encoded. lia. }
  split; [exact Hbad | by apply decode_callback_data_malformed].
Qed.

(** The token of a button decodes to the chapter, the id of the question
    and the position of the button. *)
Lemma button_token_decodes chapter qid i :
  contains "|" chapter = false ->
  decode_callback_data (encode_callback_data chapter qid (Z.of_nat i))
  = Ok (chapter, qid, Z.of_nat i).
Proof.
  intros Hch. unfold decode_callback_data.
  rewrite (split_encoded _ _ _ Hch). by rewrite !int_str.
Qed.

(** The keyboard has one row for each option, in the order of the options;
    a row is a single button labelled with the text of its option, and for a
    chapter name without [|] the data of the button decodes to the chapter,
    the id of the question and the position of the option. *)
Theorem build_keyboard_rows question chapter :
  length (build_keyboard question chapter) = length (q_options question)
  /\ forall i opt,
      q_options question !! i = Some opt ->
      exists button,
        build_keyboard question chapter !! i = Some [button]
        /\ label button = o_text opt
        /\ (contains "|" chapter = false ->
            decode_callback_data (callback_data button)
            = Ok (chapter, q_id question, Z.of_nat i)).
Proof.
  split; [apply length_imap|].
  intros i opt Hopt. eexists. split; [by apply build_keyboard_token|].
  split; [reflexivity|]. simpl. apply button_token_decodes.
Qed.

End TokenShape.

Section TokenShapeExamples.

#[local] Existing Instance sample_unicode.

Lemma encode_callback_data_bar_in_chapter_witness :
  contains "|" "a|b" = true
  /\ decode_callback_data (encode_callback_data "a|b" 1 2) = Raise ValueError.
Proof.
  split; [reflexivity|].
  apply (encode_callback_data_bar_in_chapter "a|b" 1 2). reflexivity.
Defined.

Lemma build_keyboard_rows_witness :
  q_options example_question !! 1%nat
  = Some {| o_text := "4"; o_correct := Some true;
            o_explanation := Some "basic addition" |}
  /\ contains "|" "ch1" = false
  /\ exists button,
      build_keyboard example_question "ch1" !! 1%nat = Some [button]
      /\ decode_callback_data (callback_data button) = Ok ("ch1", 1, 1).
Proof.
  split; [reflexivity|]. split; [reflexivity|].
  destruct (build_keyboard_rows example_question "ch1") as [_ Hrows].
  destruct (Hrows 1%nat _ eq_refl) as (button & Hrow & _ & Hdec).
  exists button. split; [exact Hrow | exact (Hdec eq_refl)].
Defined.

End TokenShapeExamples.

(* ===================================================================== *)
(** ** More on the result renderer                                        *)
(* ===================================================================== *)

Section RendererEdges.

Variable question : Question.

Lemma getitem_before_start {A} (l : list A) (i : Z) :
  i < - Z.of_nat (length l) -> getitem l i = Raise IndexError.
Proof.
  intros Hi. unfold getitem.
  destruct (Z.ltb_spec i 0); [|lia].
  destruct (Z.ltb_spec (i + Z.of_nat (length l)) 0); [reflexivity | lia].
Qed.

(** The renderer returns a text exactly for the indices Python accepts for
    the list of options, from [-len(options)] to [len(options) - 1]; for any
    other index, and so for every index when there are no options, it raises
    [IndexError]. *)
Theorem format_result_text_domain (selected_index : Z) :
  (- Z.of_nat (length (q_options question)) <= selected_index
     < Z.of_nat (length (q_options question)) ->
   exists text, format_result_text question selected_index = Ok text)
  /\ (~ (- Z.of_nat (length (q_options question)) <= selected_index
          < Z.of_nat (length (q_options question))) ->
      format_result_text question selected_index = Raise IndexError).
Proof.
  split.
  - intros Hsel. unfold format_result_text.
    destruct (Z.lt_ge_cases selected_index 0) as [Hneg|Hpos].
    + destruct (getitem_from_end (q_options question) selected_index)
        as (selected & _ & ->); [lia | eauto].
    + destruct (getitem_in_range (q_options question) selected_index)
        as (selected & _ & ->); [lia | eauto].
  - intros Hout. unfold format_result_text.
    destruct (Z.lt_ge_cases selected_index 0) as [Hneg|Hpos].
    + rewrite getitem_before_start by lia. reflexivity.
    + rewrite getitem_past_end by lia. reflexivity.
Qed.

(** Picking the option the renderer takes for the correct one: the text
    returned is the header, the option lines and the explanation of that
    option; the line of that option has the check mark, every other line the
    neutral mark, and no line has the cross. *)
Theorem format_result_text_correct_pick (i : nat) :
  first_correct question i ->
  (exists selected,
      q_options question !! i = Some selected
      /\ format_result_text question (Z.of_nat i)
         = Ok (join nl (("<b>❓ " +:+ q_question question +:+ "</b>" +:+ nl)
                          :: option_lines question (Z.of_nat i)
                          ++ [nl +:+ "💡 " +:+
                              match o_explanation selected with
                              | Some expl => expl
                              | None => ""
                              end])))
  /\ length (option_lines question (Z.of_nat i))
     = length (q_options question)
  /\ forall j opt,
      q_options question !! j = Some opt ->
      option_lines question (Z.of_nat i) !! j
      = Some ((if decide (j = i) then mark_correct else mark_neutral)
              +:+ " " +:+ o_text opt).
Proof.
  intros Hfirst. split; [|split; [apply length_option_lines|]].
  - destruct Hfirst as [(o & Ho & _) _].
    pose proof (lookup_lt_Some _ _ _ Ho) as Hlt.
    destruct (getitem_in_range (q_options question) (Z.of_nat i))
      as (selected & Hlook & Hget); [lia|].
    exists selected. rewrite Nat2Z.id in Hlook.
    split; [exact Hlook | by apply format_result_text_selected].
  - apply correct_index_first in Hfirst.
    intros j opt Hopt. rewrite (option_lines_lookup _ _ _ _ Hopt).
    do 2 f_equal. destruct (decide (j = i)) as [->|Hne].
    + by apply prefix_correct.
    + apply prefix_neutral. rewrite Hfirst. split; [lia | congruence].
Qed.

(** Only the first option flagged correct counts: picking a later option that
    is flagged correct too returns a text in which the line of that option
    has the cross and the line of the earlier one the check mark. *)
Theorem format_result_text_second_correct (i : nat) (opt : AnswerOption) :
  q_options question !! i = Some opt ->
  o_correct opt = Some true ->
  ~ first_correct question i ->
  format_result_text question (Z.of_nat i)
  = Ok (join nl (("<b>❓ " +:+ q_question question +:+ "</b>" +:+ nl)
                   :: option_lines question (Z.of_nat i)
                   ++ [nl +:+ "💡 " +:+
                       match o_explanation opt with
                       | Some expl => expl
                       | None => ""
                       end]))
  /\ length (option_lines question (Z.of_nat i))
     = length (q_options question)
  /\ option_lines question (Z.of_nat i) !! i
     = Some (mark_wrong +:+ " " +:+ o_text opt)
  /\ exists k first,
      (k < i)%nat
      /\ q_options question !! k = Some first
      /\ option_lines question (Z.of_nat i) !! k
         = Some (mark_correct +:+ " " +:+ o_text first).
Proof.
  intros Hopt Hcorrect Hnot.
  split; [|split; [apply length_option_lines|split]].
  - pose proof (lookup_lt_Some _ _ _ Hopt) as Hlt.
    destruct (getitem_in_range (q_options question) (Z.of_nat i))
      as (selected & Hlook & Hget); [lia|].
    rewrite Nat2Z.id, Hopt in Hlook. injection Hlook as <-.
    by apply format_result_text_selected.
  - rewrite (option_lines_lookup _ _ _ _ Hopt). do 2 f_equal.
    apply prefix_wrong. split; [reflexivity|].
    by rewrite correct_index_first.
  - destruct (correct_index question) as [k|] eqn:Hk.
    + pose proof Hk as Hfirst. apply correct_index_first in Hfirst.
      destruct Hfirst as [(first & Hlook & Hc) Hbefore].
      assert (k <> i) by (intros ->; by apply Hnot, correct_index_first).
      assert (~ (i < k)%nat) by (intros Hlt; by apply (Hbefore i opt)).
      exists k, first. split; [lia|]. split; [exact Hlook|].
      rewrite (option_lines_lookup _ _ _ _ Hlook). do 2 f_equal.
      by apply prefix_correct.
    + apply correct_index_none in Hk. unfold none_correct in Hk.
      rewrite Forall_lookup in Hk. by destruct (Hk i opt Hopt).
Qed.

End RendererEdges.

Lemma format_result_text_domain_witness :
  (exists text, format_result_text example_question (-3) = Ok text)
  /\ format_result_text example_question (-4) = Raise IndexError.
Proof.
  destruct (format_result_text_domain example_question (-3)) as [Hin _].
  destruct (format_result_text_domain example_question (-4)) as [_ Hout].
  split; [apply Hin; by vm_compute | apply Hout].
  intros [Hlow _]. by apply Hlow.
Defined.

Lemma format_result_text_correct_pick_witness :
  first_correct example_question 1
  /\ format_result_text example_question 1
     = Ok (join nl (("<b>❓ 2+2=?</b>" +:+ nl)
                      :: option_lines example_question 1
                      ++ [nl +:+ "💡 basic addition"]))
  /\ option_lines example_question 1 !! 0%nat
     = Some (mark_neutral +:+ " 3").
Proof.
  assert (first_correct example_question 1) as Hfirst.
  { apply correct_index_first. reflexivity. }
  split; [exact Hfirst|].
  destruct (format_result_text_correct_pick example_question 1 Hfirst)
    as ((selected & Hselected & Htext) & _ & Hlines).
  injection Hselected as <-.
  split; [exact Htext | exact (Hlines 0%nat _ eq_refl)].
Defined.

Lemma format_result_text_second_correct_witness :
  ~ first_correct two_correct_question 2
  /\ format_result_text two_correct_question 2
     = Ok (join nl (("<b>❓ x squared is?</b>" +:+ nl)
                      :: option_lines two_correct_question 2
                      ++ [nl +:+ "💡 "]))
  /\ option_lines two_correct_question 2 !! 2%nat
     = Some (mark_wrong +:+ " x*x").
Proof.
  assert (~ first_correct two_correct_question 2) as Hnot.
  { rewrite <- correct_index_first. by vm_compute. }
  split; [exact Hnot|].
  destruct (format_result_text_second_correct two_correct_question 2
              {| o_text := "x*x"; o_correct := Some true;
                 o_explanation := None |} eq_refl eq_refl Hnot)
    as (Htext & _ & Hline & _).
  split; [exact Htext | exact Hline].
Defined.

(* ===================================================================== *)
(** ** More on the callback handler                                       *)
(* ===================================================================== *)

Section CallbackPaths.

Context {unicode : UnicodeData}.

Variable cfg : Config.
Variable w : World.

(** What the handler does with an exception of its [try] block. *)
Lemma answer_callback_caught data e t t1 :
  telegram w (length t) = None ->
  answer_callback_try cfg w data (t ++ [EAnswer]) = (Raise e, t1) ->
  answer_callback cfg w data t
  = (match telegram w (S (length t1)) with
     | None => Ok tt
     | Some e' => Raise e'
     end,
     t1 ++ [ELogException "Error processing callback" e;
            EEditMessageText msg_error None]).
Proof.
  intros Hanswer Htry.
  unfold answer_callback, bind, try_except, api_call at 1.
  rewrite Hanswer, Htry.
  unfold emit, edit_message_text, api_call.
  rewrite length_app, <- app_assoc. simpl.
  by replace (length t1 + 1)%nat with (S (length t1)) by lia.
Qed.

(** A click on a button of the keyboard sent for a question: when the
    chapter still loads and the question is the first one with its id, the
    message is edited to the rendering of that question for the option of
    the button. *)
Theorem answer_callback_reveals_button
    chapter questions k question i opt button t t1 :
  contains "|" chapter = false ->
  q_options question !! i = Some opt ->
  build_keyboard question chapter !! i = Some [button] ->
  telegram w (length t) = None ->
  load_questions cfg w chapter (t ++ [EAnswer]) = (Ok questions, t1) ->
  list_find (fun qq => q_id qq = q_id question) questions
  = Some (k, question) ->
  telegram w (length t1) = None ->
  exists text,
    format_result_text question (Z.of_nat i) = Ok text
    /\ answer_callback cfg w (callback_data button) t
       = (Ok tt, t1 ++ [EEditMessageText text (Some "HTML")]).
Proof.
  intros Hch Hopt Hrow Hanswer Hload Hfind Hedit.
  rewrite (build_keyboard_token _ chapter _ _ Hopt) in Hrow.
  injection Hrow as <-. simpl callback_data.
  apply lookup_lt_Some in Hopt.
  destruct (getitem_in_range (q_options question) (Z.of_nat i))
    as (selected & _ & Hget); [lia|].
  eexists. split.
  - unfold format_result_text. rewrite Hget. reflexivity.
  - unfold answer_callback, bind, try_except, api_call at 1.
    rewrite Hanswer.
    unfold answer_callback_try, bind, lift.
    rewrite (button_token_decodes _ _ _ Hch), Hload, Hfind.
    unfold format_result_text. rewrite Hget.
    unfold edit_message_text, api_call. by rewrite Hedit.
Qed.

(** A token whose option index is outside the options of the question (the
    bank has changed since the keyboard was sent): the [IndexError] of the
    renderer is logged and the message is edited to the generic error
    text. *)
Theorem answer_callback_stale_option
    data chapter qid opt_index questions k question t t1 :
  decode_callback_data data = Ok (chapter, qid, opt_index) ->
  telegram w (length t) = None ->
  load_questions cfg w chapter (t ++ [EAnswer]) = (Ok questions, t1) ->
  list_find (fun qq => q_id qq = qid) questions = Some (k, question) ->
  ~ (- Z.of_nat (length (q_options question)) <= opt_index
       < Z.of_nat (length (q_options question))) ->
  answer_callback cfg w data t
  = (match telegram w (S (length t1)) with
     | None => Ok tt
     | Some e => Raise e
     end,
     t1 ++ [ELogException "Error processing callback" IndexError;
            EEditMessageText msg_error None]).
Proof.
  intros Hdec Hanswer Hload Hfind Hout.
  apply answer_callback_caught; [exact Hanswer|].
  unfold answer_callback_try, bind, lift. rewrite Hdec, Hload, Hfind.
  assert (getitem (q_options question) opt_index = Raise IndexError) as Hget.
  { destruct (Z.lt_ge_cases opt_index 0).
    - apply getitem_before_start. lia.
    - apply getitem_past_end. lia. }
  unfold format_result_text. by rewrite Hget.
Qed.

(** A token whose chapter cannot be loaded any more: the exception of the
    question store is logged and the message is edited to the generic error
    text. *)
Theorem answer_callback_load_fails data chapter qid opt_index e t t1 :
  decode_callback_data data = Ok (chapter, qid, opt_index) ->
  telegram w (length t) = None ->
  load_questions cfg w chapter (t ++ [EAnswer]) = (Raise e, t1) ->
  answer_callback cfg w data t
  = (match telegram w (S (length t1)) with
     | None => Ok tt
     | Some e' => Raise e'
     end,
     t1 ++ [ELogException "Error processing callback" e;
            EEditMessageText msg_error None]).
Proof.
  intros Hdec Hanswer Hload.
  apply answer_callback_caught; [exact Hanswer|].
  unfold answer_callback_try, bind, lift. by rewrite Hdec, Hload.
Qed.

(** The [try] block extends the trace, and when it returns normally its last
    call is an edit of the message. *)
Lemma answer_callback_try_trace data t :
  exists r evs,
    answer_callback_try cfg w data t = (r, t ++ evs)
    /\ (forall u, r = Ok u ->
        exists calls text parse_mode,
          evs = calls ++ [EEditMessageText text parse_mode]).
Proof.
  unfold answer_callback_try, bind, lift.
  destruct (decode_callback_data data) as [[[chapter qid] opt_index]|e].
  2: { exists (Raise e), []. rewrite app_nil_r. by split. }
  destruct (load_questions_calls cfg w chapter t) as (r & calls & -> & _).
  destruct r as [questions|e].
  2: { eexists _, _. by split. }
  assert (forall text parse_mode,
             exists r,
               edit_message_text w text parse_mode
                 (t ++ EExists (chapter +:+ ".json") :: calls)
               = (r, t ++ (EExists (chapter +:+ ".json") :: calls)
                         ++ [EEditMessageText text parse_mode])) as Hedit.
  { intros text parse_mode. unfold edit_message_text, api_call.
    rewrite <- app_assoc. eauto. }
  destruct (list_find _ questions) as [[k question]|].
  - destruct (format_result_text question opt_index) as [text|e].
    + destruct (Hedit text (Some "HTML")) as [r ->].
      eexists _, _. split; [reflexivity|]. eauto.
    + eexists _, _. by split.
  - destruct (Hedit msg_not_found None) as [r ->].
    eexists _, _. split; [reflexivity|]. eauto.
Qed.

(** The handler acknowledges the click before anything else.  If that call
    fails, its exception leaves the handler and nothing more is done.
    Otherwise the last thing the handler does is an edit of the message, and
    the only exception that can leave it is one raised by the Telegram
    API. *)
Theorem answer_callback_outcomes data t :
  exists r rest,
    answer_callback cfg w data t = (r, t ++ EAnswer :: rest)
    /\ (forall e, r = Raise e -> exists moment, telegram w moment = Some e)
    /\ (telegram w (length t) = None ->
        exists calls text parse_mode,
          rest = calls ++ [EEditMessageText text parse_mode])
    /\ (forall e, telegram w (length t) = Some e -> r = Raise e /\ rest = []).
Proof.
  destruct (telegram w (length t)) as [e|] eqn:Hanswer.
  { unfold answer_callback, bind, api_call at 1. rewrite Hanswer.
    exists (Raise e), []. split; [reflexivity|]. split; [|split; [done|]].
    - intros e' [= <-]. eauto.
    - by intros e' [= <-]. }
  destruct (answer_callback_try_trace data (t ++ [EAnswer]))
    as (r & evs & Htry & Hok).
  destruct r as [[]|e].
  - unfold answer_callback, bind, try_except, api_call at 1.
    rewrite Hanswer, Htry.
    exists (Ok tt), evs. rewrite <- app_assoc. split; [reflexivity|].
    split; [discriminate|]. split; [|done]. intros _. by apply (Hok tt).
  - rewrite (answer_callback_caught _ _ _ _ Hanswer Htry).
    eexists _, (evs ++ [_; _]). split; [|split; [|split; [|done]]].
    + rewrite <- !app_assoc. reflexivity.
    + intros e'. destruct (telegram w (S _)) eqn:Hlast; [|discriminate].
      intros [= <-]. eauto.
    + intros _. eexists (evs ++ [_]), _, _. by rewrite <- app_assoc.
Qed.

End CallbackPaths.

Section CallbackPathsExamples.

#[local] Existing Instance sample_unicode.

Lemma answer_callback_reveals_button_witness :
  exists text,
    format_result_text example_question 0 = Ok text
    /\ answer_callback example_config example_world "ch1|1|0" []
       = (Ok tt,
          [EAnswer; EExists "ch1.json"; EOpen "ch1.json";
           EEditMessageText text (Some "HTML")]).
Proof.
  apply (answer_callback_reveals_button example_config example_world
           "ch1" [example_question] 0%nat example_question 0%nat
           {| o_text := "3"; o_correct := None; o_explanation := None |}
           {| label := "3"; callback_data := "ch1|1|0" |} []
           [EAnswer; EExists "ch1.json"; EOpen "ch1.json"]);
    reflexivity.
Defined.

Lemma answer_callback_stale_option_witness :
  answer_callback example_config example_world "ch1|1|3" []
  = (Ok tt,
     [EAnswer; EExists "ch1.json"; EOpen "ch1.json";
      ELogException "Error processing callback" IndexError;
      EEditMessageText msg_error None]).
Proof.
  apply (answer_callback_stale_option example_config example_world
           "ch1|1|3" "ch1" 1 3 [example_question] 0%nat example_question []
           [EAnswer; EExists "ch1.json"; EOpen "ch1.json"]);
    try reflexivity.
  intros [_ Hhigh]. vm_compute in Hhigh. discriminate Hhigh.
Defined.

Lemma answer_callback_load_fails_witness :
  answer_callback offline_config example_world "ch9|1|0" []
  = (Ok tt,
     [EAnswer; EExists "ch9.json";
      ELogException "Error processing callback" FileNotFoundError;
      EEditMessageText msg_error None]).
Proof.
  apply (answer_callback_load_fails offline_config example_world
           "ch9|1|0" "ch9" 1 0 FileNotFoundError []
           [EAnswer; EExists "ch9.json"]);
    reflexivity.
Defined.

Lemma answer_callback_outcomes_witness :
  (exists r rest,
      answer_callback example_config example_world "ch1|1|0" []
      = (r, EAnswer :: rest)
      /\ exists calls text parse_mode,
          rest = calls ++ [EEditMessageText text parse_mode])
  /\ answer_callback example_config example_world "ch1|1|0"
       [ESleep; ESleep; ESleep; ESleep; ESleep; ESleep;
        ESleep; ESleep; ESleep; ESleep; ESleep]
     = (Raise (LibraryError "TimedOut"),
        [ESleep; ESleep; ESleep; ESleep; ESleep; ESleep;
         ESleep; ESleep; ESleep; ESleep; ESleep; EAnswer]).
Proof.
  split.
  - destruct (answer_callback_outcomes example_config example_world
                "ch1|1|0" []) as (r & rest & Hrun & _ & Hedit & _).
    exists r, rest. split; [exact Hrun | exact (Hedit eq_refl)].
  - destruct (answer_callback_outcomes example_config example_world
                "ch1|1|0"
                [ESleep; ESleep; ESleep; ESleep; ESleep; ESleep;
                 ESleep; ESleep; ESleep; ESleep; ESleep])
      as (r & rest & Hrun & _ & _ & Hraise).
    destruct (Hraise (LibraryError "TimedOut") eq_refl) as [-> ->].
    exact Hrun.
Defined.

End CallbackPathsExamples.

(* ===================================================================== *)
(** ** More on the dispatcher                                             *)
(* ===================================================================== *)

Section Sends.

Variable cfg : Config.
Variable w : World.

(** A chapter whose bank is the empty array: [random.choice] raises
    [IndexError], which is logged; no message is sent. *)
Theorem send_one_question_empty_bank chapter t t1 :
  load_questions cfg w chapter t = (Ok [], t1) ->
  send_one_question cfg w chapter t
  = (Ok tt,
     t1 ++ [ELogException
              ("Failed to send question for chapter " +:+ chapter)
              IndexError]).
Proof.
  intros Hload.
  unfold send_one_question, try_except, send_one_question_try, bind.
  rewrite Hload. unfold random_choice. simpl lookup. reflexivity.
Qed.

(** A chapter whose bank loads and is not empty: one question of the bank is
    drawn and one message is handed to the Telegram API, for the configured
    chat, in HTML mode, with the chapter and the text of the question and
    with the keyboard of that question.  If the API accepts it the send is
    logged, if it raises that exception is logged; either way the call
    returns normally. *)
Theorem send_one_question_message chapter questions t t1 :
  load_questions cfg w chapter t = (Ok questions, t1) ->
  questions <> [] ->
  exists q,
    questions !! (draw w (length t1) `mod` length questions)%nat = Some q
    /\ send_one_question cfg w chapter t
       = (Ok tt,
          t1 ++ [EChoice (length questions);
                 ESendMessage (CHAT_ID cfg)
                   ("📚 <b>" +:+ chapter +:+ "</b>" +:+ nl +:+ nl
                    +:+ "❓ " +:+ q_question q)
                   "HTML" (build_keyboard q chapter);
                 match telegram w (S (length t1)) with
                 | None =>
                     ELogInfo ("Sent question id=" +:+ str (q_id q)
                               +:+ " from chapter=" +:+ chapter)
                 | Some e =>
                     ELogException
                       ("Failed to send question for chapter " +:+ chapter) e
                 end]).
Proof.
  intros Hload Hne.
  destruct (lookup_lt_is_Some_2 questions
              (draw w (length t1) `mod` length questions)%nat) as [q Hq].
  { apply Nat.mod_upper_bound. by destruct questions. }
  exists q. split; [exact Hq|].
  unfold send_one_question, try_except, send_one_question_try, bind.
  rewrite Hload. unfold random_choice. rewrite Hq.
  unfold api_call, emit. rewrite length_app. simpl length.
  replace (length t1 + 1)%nat with (S (length t1)) by lia.
  destruct (telegram w (S (length t1))); by rewrite <- !app_assoc.
Qed.

(** Loading sends no message and makes no pause. *)
Lemma load_questions_no_send chapter t :
  exists r evs,
    load_questions cfg w chapter t = (r, t ++ evs)
    /\ filter is_send evs = [] /\ filter is_sleep evs = [].
Proof.
  unfold load_questions, bind, local_exists.
  destruct (local_files w (chapter +:+ ".json")) as [d|] eqn:Hfile.
  - rewrite bool_decide_eq_true_2 by eauto.
    unfold open_json_load. rewrite Hfile, <- app_assoc.
    eexists _, _. by split.
  - rewrite bool_decide_eq_false_2 by (intros [? ?]; discriminate).
    destruct (GITHUB_RAW_BASE cfg) as [|c base].
    + eexists _, _. by split.
    + unfold requests_get, lift.
      destruct (remote w _) as [e|status_code body]; simpl.
      * rewrite <- app_assoc. eexists _, _. by split.
      * destruct (raise_for_status status_code) as [[]|e];
          rewrite <- app_assoc; eexists _, _; by split.
Qed.

(** One call of [send_one_question] hands at most one message to the
    Telegram API. *)
Lemma send_one_question_at_most_one chapter t :
  exists evs,
    send_one_question cfg w chapter t = (Ok tt, t ++ evs)
    /\ (length (filter is_send evs) <= 1)%nat
    /\ filter is_sleep evs = [].
Proof.
  destruct (load_questions_no_send chapter t)
    as (r & evs & Hload & Hsend & Hsleep).
  unfold send_one_question, try_except, send_one_question_try, bind.
  rewrite Hload. destruct r as [questions|e].
  - unfold random_choice. destruct (questions !! _) as [q|].
    + unfold api_call, emit.
      destruct (telegram w _) as [e|];
        (eexists (evs ++ [_; _; _]); split;
         [by rewrite <- !app_assoc
         | rewrite !filter_app, Hsend, Hsleep; split; [simpl; lia | done]]).
    + unfold emit. eexists (evs ++ [_]). split; [by rewrite <- !app_assoc|].
      rewrite !filter_app, Hsend, Hsleep. split; [simpl; lia | done].
  - unfold emit. eexists (evs ++ [_]). split; [by rewrite <- !app_assoc|].
    rewrite !filter_app, Hsend, Hsleep. split; [simpl; lia | done].
Qed.

Lemma pick_chapter_no_send t :
  CHAPTERS cfg <> [] ->
  exists chapter evs,
    pick_chapter cfg w t = (Ok chapter, t ++ evs)
    /\ filter is_send evs = [] /\ filter is_sleep evs = [].
Proof.
  intros Hne. unfold pick_chapter.
  destruct (String.eqb (MODE cfg) "random").
  - unfold random_choice.
    destruct (lookup_lt_is_Some_2 (CHAPTERS cfg)
                (draw w (length t) `mod` length (CHAPTERS cfg))%nat)
      as [chapter Hchapter].
    { apply Nat.mod_upper_bound. by destruct (CHAPTERS cfg). }
    rewrite Hchapter. eexists _, _. by split.
  - destruct (CHAPTERS cfg) as [|first rest]; [done|].
    exists first, []. rewrite app_nil_r. by split.
Qed.

Lemma for_range_counts n :
  CHAPTERS cfg <> [] ->
  forall t,
  exists evs,
    for_range n (send_questions_step cfg w) t = (Ok tt, t ++ evs)
    /\ length (filter is_sleep evs) = n
    /\ (length (filter is_send evs) <= n)%nat.
Proof.
  intros Hne. induction n as [|n IH]; intros t.
  - exists []. simpl. rewrite app_nil_r. by repeat split.
  - destruct (pick_chapter_no_send t Hne)
      as (chapter & picks & Hpick & Hpick_send & Hpick_sleep).
    destruct (send_one_question_at_most_one chapter (t ++ picks))
      as (sent & Hsent & Hsent_send & Hsent_sleep).
    destruct (IH (((t ++ picks) ++ sent) ++ [ESleep]))
      as (evs & Hrest & Hsleeps & Hsends).
    exists (picks ++ sent ++ [ESleep] ++ evs). split; [|split].
    + simpl. unfold bind at 1.
      set (loop := for_range n (send_questions_step cfg w)) in *.
      unfold send_questions_step, bind, emit.
      rewrite Hpick, Hsent, Hrest. f_equal. by rewrite <- !app_assoc.
    + rewrite !filter_app, !length_app, Hpick_sleep, Hsent_sleep, Hsleeps.
      reflexivity.
    + rewrite !filter_app, !length_app, Hpick_send. simpl. lia.
Qed.

(** A run pauses exactly [max(1, QUESTIONS_PER_RUN)] times and hands at most
    that many messages to the Telegram API. *)
Theorem send_questions_counts t :
  CHAPTERS cfg <> [] ->
  exists evs,
    send_questions cfg w t = (Ok tt, t ++ evs)
    /\ length (filter is_sleep evs)
       = Z.to_nat (Z.max 1 (QUESTIONS_PER_RUN cfg))
    /\ (length (filter is_send evs)
        <= Z.to_nat (Z.max 1 (QUESTIONS_PER_RUN cfg)))%nat.
Proof. intros Hne. by apply for_range_counts. Qed.

End Sends.

Lemma send_one_question_empty_bank_witness :
  send_one_question offline_config empty_bank_world "ch1" []
  = (Ok tt,
     [EExists "ch1.json"; EOpen "ch1.json";
      ELogException "Failed to send question for chapter ch1" IndexError]).
Proof.
  apply (send_one_question_empty_bank offline_config empty_bank_world
           "ch1" [] [EExists "ch1.json"; EOpen "ch1.json"]).
  reflexivity.
Defined.

Lemma send_one_question_message_witness :
  exists q,
    [example_question] !! 0%nat = Some q
    /\ (send_one_question example_config example_world "ch1" []).2
       = [EExists "ch1.json"; EOpen "ch1.json"; EChoice 1;
          ESendMessage "-1001"
            ("📚 <b>ch1</b>" +:+ nl +:+ nl +:+ "❓ " +:+ q_question q)
            "HTML" (build_keyboard q "ch1");
          ELogInfo ("Sent question id=" +:+ str (q_id q)
                    +:+ " from chapter=ch1")].
Proof.
  destruct (send_one_question_message example_config example_world
              "ch1" [example_question] []
              [EExists "ch1.json"; EOpen "ch1.json"] eq_refl)
    as (q & Hq & Hrun); [discriminate|].
  exists q. split; [exact Hq|]. rewrite Hrun. reflexivity.
Defined.

Lemma send_questions_counts_witness :
  CHAPTERS example_config <> []
  /\ exists evs,
      send_questions example_config example_world [] = (Ok tt, evs)
      /\ length (filter is_sleep evs) = 3%nat
      /\ (length (filter is_send evs) <= 3)%nat.
Proof.
  assert (CHAPTERS example_config <> []) as Hne by discriminate.
  split; [exact Hne|].
  exact (send_questions_counts example_config example_world [] Hne).
Defined.

(* ===================================================================== *)
(** ** Facts about the string and path methods of the start-up code      *)
(* ===================================================================== *)

Section PathFacts.

Lemma endswith_append prefix suffix :
  Paths.endswith (prefix +:+ suffix) suffix = true.
Proof.
  induction prefix as [|c prefix IH].
  - rewrite append_nil. destruct suffix as [|a rest]; [reflexivity|].
    change (Paths.endswith (String a rest) (String a rest))
      with (String.eqb (String a rest) (String a rest)
            || Paths.endswith rest (String a rest)).
    by rewrite String.eqb_refl.
  - rewrite append_cons.
    change (Paths.endswith (String c (prefix +:+ suffix)) suffix)
      with (String.eqb (String c (prefix +:+ suffix)) suffix
            || Paths.endswith (prefix +:+ suffix) suffix).
    rewrite IH. apply orb_true_r.
Qed.

Lemma endswith_inv s suffix :
  Paths.endswith s suffix = true -> exists prefix, s = prefix +:+ suffix.
Proof.
  induction s as [|c s IH].
  - destruct suffix; [by exists ""|discriminate].
  - change (Paths.endswith (String c s) suffix)
      with (String.eqb (String c s) suffix || Paths.endswith s suffix).
    intros [->%String.eqb_eq | Hrest]%orb_true_iff; [by exists ""|].
    destruct (IH Hrest) as [prefix ->]. by exists (String c prefix).
Qed.

Lemma rfind_dot_json x :
  Paths.rfind "." (x +:+ ".json") = Z.of_nat (String.length x).
Proof.
  induction x as [|c x IH]; [reflexivity|].
  rewrite append_cons. simpl Paths.rfind. rewrite IH.
  destruct (Z.leb_spec 0 (Z.of_nat (String.length x))); [|lia].
  simpl String.length. lia.
Qed.

Lemma length_append (a b : string) :
  String.length (a +:+ b) = (String.length a + String.length b)%nat.
Proof.
  induction a as [|c a IH]; [reflexivity|].
  rewrite append_cons. simpl. by rewrite IH.
Qed.

Lemma substring_prefix (a b : string) :
  substring 0 (String.length a) (a +:+ b) = a.
Proof.
  induction a as [|c a IH].
  - rewrite append_nil. by destruct b.
  - rewrite append_cons. simpl. by rewrite IH.
Qed.

(** The stem of [x.json] is [x], for a name [x] that is not empty. *)
Lemma stem_json c x :
  Paths.stem (String c x +:+ ".json") = String c x.
Proof.
  unfold Paths.stem. rewrite rfind_dot_json, length_append.
  rewrite Nat2Z.id.
  destruct (Z.ltb_spec 0 (Z.of_nat (String.length (String c x))));
    [|simpl in *; lia].
  destruct (Z.ltb_spec (Z.of_nat (String.length (String c x)))
              (Z.of_nat (String.length (String c x)
                         + String.length ".json") - 1));
    [|simpl in *; lia].
  apply substring_prefix.
Qed.

(** The stem of a name is never empty. *)
Lemma stem_nonempty name : name <> "" -> Paths.stem name <> "".
Proof.
  intros Hname. unfold Paths.stem.
  destruct (Z.ltb_spec 0 (Paths.rfind "." name)); simpl; [|exact Hname].
  destruct (_ <? _); [|exact Hname].
  destruct name as [|c name]; [done|].
  destruct (Z.to_nat (Paths.rfind "." (String c name))) eqn:Hi; [lia|].
  discriminate.
Qed.

(** *** Characters *)

(** The characters of a string have the shape of characters, and all but
    the first begin with a byte that is no continuation byte. *)
Lemma chars_shape s :
  Forall is_char (chars s) /\ Forall is_headed (tail (chars s)).
Proof.
  induction s as [|c s [IHchar IHhead]]; [by split|]. simpl.
  destruct (chars s) as [|[|c' g] gs]; [by repeat constructor.. |].
  inversion IHchar as [|? ? Hg Hgs]; subst. simpl in Hg, IHhead.
  destruct (is_continuation c') eqn:Hc'.
  - split; [|exact IHhead]. constructor; [|exact Hgs].
    simpl. by rewrite Hc'.
  - split; [by repeat constructor|]. simpl. constructor; [|exact IHhead].
    simpl. by rewrite Hc'.
Qed.

Lemma unchars_chars s : unchars (chars s) = s.
Proof.
  induction s as [|c s IH]; [reflexivity|].
  destruct (chars_shape s) as [Hchar _]. simpl.
  destruct (chars s) as [|[|c' g] gs]; simpl in IH.
  - by subst s.
  - by inversion Hchar.
  - subst s. by destruct (is_continuation c').
Qed.

(** A byte, continuation bytes and then a new character: the first
    character is the byte with the continuation bytes. *)
Lemma chars_cons_char c r rest :
  forallb_string is_continuation r = true ->
  (forall g gs, chars rest = g :: gs -> is_headed g = true) ->
  chars (String c (r +:+ rest)) = String c r :: chars rest.
Proof.
  revert c. induction r as [|c1 r1 IH]; intros c Hr Hrest.
  - rewrite append_nil. simpl.
    destruct (chars rest) as [|[|c' g] gs] eqn:Hchars; [reflexivity| |].
    + by specialize (Hrest _ _ eq_refl).
    + specialize (Hrest _ _ eq_refl). simpl in Hrest.
      by destruct (is_continuation c').
  - simpl in Hr. apply andb_true_iff in Hr as [Hc1 Hr1].
    rewrite append_cons.
    change (chars (String c (String c1 (r1 +:+ rest))))
      with (match chars (String c1 (r1 +:+ rest)) with
            | String c' g :: gs =>
                if is_continuation c' then String c (String c' g) :: gs
                else String c EmptyString :: String c' g :: gs
            | _ => [String c EmptyString]
            end).
    rewrite (IH c1 Hr1 Hrest). by rewrite Hc1.
Qed.

(** Characters are found again in their bytes. *)
Lemma chars_unchars gs :
  Forall is_char gs -> Forall is_headed (tail gs) ->
  chars (unchars gs) = gs.
Proof.
  induction gs as [|g gs IH]; [reflexivity|].
  intros Hchar Hhead. inversion Hchar as [|? ? Hg Hgs]; subst.
  simpl in Hhead.
  assert (chars (unchars gs) = gs) as Hrec.
  { apply IH; [exact Hgs|]. destruct gs; [constructor|].
    by inversion Hhead. }
  destruct g as [|c r]; [done|]. simpl in Hg. simpl unchars.
  rewrite append_cons, chars_cons_char;
    [by rewrite Hrec | by apply Is_true_true |].
  rewrite Hrec. intros g' gs' ->. apply Is_true_true. by inversion Hhead.
Qed.

Lemma contains_unchars c gs :
  contains c (unchars gs) = false
  <-> Forall (fun g => contains c g = false) gs.
Proof.
  induction gs as [|g gs IH]; simpl; [by split|].
  rewrite contains_append, orb_false_iff, IH, Forall_cons. done.
Qed.

(** *** Stripping *)

Lemma Forall_lstrip (P : string -> Prop) gs :
  Forall P gs -> Forall P (Paths.lstrip gs).
Proof.
  induction 1 as [|g gs Hg Hgs IH]; simpl; [constructor|].
  destruct (Paths.is_whitespace g); [exact IH | by constructor].
Qed.

Lemma Forall_tail_lstrip (P : string -> Prop) gs :
  Forall P (tail gs) -> Forall P (tail (Paths.lstrip gs)).
Proof.
  induction gs as [|g gs IH]; simpl; [done|]. intros Hgs.
  destruct (Paths.is_whitespace g); [|exact Hgs].
  apply IH. destruct gs; [constructor | by inversion Hgs].
Qed.

Lemma Forall_rstrip (P : string -> Prop) gs :
  Forall P gs -> Forall P (Paths.rstrip gs).
Proof.
  induction 1 as [|g gs Hg Hgs IH]; simpl; [constructor|].
  destruct (Paths.rstrip gs) as [|k kept].
  - destruct (Paths.is_whitespace g); by repeat constructor.
  - by constructor.
Qed.

Lemma Forall_tail_rstrip (P : string -> Prop) gs :
  Forall P (tail gs) -> Forall P (tail (Paths.rstrip gs)).
Proof.
  destruct gs as [|g gs]; simpl; [done|]. intros Hgs.
  pose proof (Forall_rstrip P gs Hgs) as Hkept.
  destruct (Paths.rstrip gs) as [|k kept].
  - destruct (Paths.is_whitespace g); constructor.
  - exact Hkept.
Qed.

Lemma lstrip_head gs : head_not_whitespace (Paths.lstrip gs).
Proof.
  induction gs as [|g gs IH]; simpl; [by intros g'|].
  destruct (Paths.is_whitespace g) eqn:Hg; [exact IH|].
  by intros g' [= <-].
Qed.

Lemma rstrip_head gs :
  head_not_whitespace gs -> head_not_whitespace (Paths.rstrip gs).
Proof.
  destruct gs as [|g gs]; simpl; [done|]. intros Hhead.
  pose proof (Hhead g eq_refl) as Hg. rewrite Hg.
  destruct (Paths.rstrip gs); by intros g' [= <-].
Qed.

Lemma rstrip_last gs : last_not_whitespace (Paths.rstrip gs).
Proof.
  induction gs as [|g gs IH]; simpl; [by intros g'|].
  destruct (Paths.rstrip gs) as [|k kept].
  - destruct (Paths.is_whitespace g) eqn:Hg; [by intros g'|].
    by intros g' [= <-].
  - intros g'. rewrite last_cons_cons. apply IH.
Qed.

Lemma lstrip_fixed gs : head_not_whitespace gs -> Paths.lstrip gs = gs.
Proof.
  destruct gs as [|g gs]; simpl; [done|]. intros Hhead.
  by rewrite (Hhead g eq_refl).
Qed.

Lemma rstrip_fixed gs : last_not_whitespace gs -> Paths.rstrip gs = gs.
Proof.
  induction gs as [|g gs IH]; simpl; [done|]. intros Hlast.
  destruct gs as [|k gs].
  - simpl. by rewrite (Hlast g eq_refl).
  - rewrite IH; [reflexivity|]. intros g' Hg'. apply Hlast.
    by rewrite last_cons_cons.
Qed.

(** The characters of a stripped string are those of the string without the
    whitespace at both ends. *)
Lemma chars_strip s :
  chars (Paths.strip s) = Paths.rstrip (Paths.lstrip (chars s)).
Proof.
  unfold Paths.strip. destruct (chars_shape s) as [Hchar Hhead].
  apply chars_unchars.
  - by apply Forall_rstrip, Forall_lstrip.
  - by apply Forall_tail_rstrip, Forall_tail_lstrip.
Qed.

(** After stripping, the first and the last character are not whitespace. *)
Lemma strip_ends s :
  head_not_whitespace (chars (Paths.strip s))
  /\ last_not_whitespace (chars (Paths.strip s)).
Proof.
  rewrite chars_strip. split.
  - apply rstrip_head, lstrip_head.
  - apply rstrip_last.
Qed.

(** Stripping twice is stripping once. *)
Lemma strip_idemp s : Paths.strip (Paths.strip s) = Paths.strip s.
Proof.
  destruct (strip_ends s) as [Hhead Hlast].
  unfold Paths.strip at 1.
  rewrite (lstrip_fixed _ Hhead), (rstrip_fixed _ Hlast).
  apply unchars_chars.
Qed.

(** Stripping brings no character in. *)
Lemma contains_strip c s :
  contains c s = false -> contains c (Paths.strip s) = false.
Proof.
  intros Hs. rewrite <- (unchars_chars s) in Hs.
  apply contains_unchars in Hs. unfold Paths.strip.
  by apply contains_unchars, Forall_rstrip, Forall_lstrip.
Qed.

(** No field of a split has the separator in it. *)
Lemma split_fields_no_sep sep s :
  Forall (fun field => contains sep field = false) (split sep s).
Proof.
  induction s as [|c s IH]; simpl; [by repeat constructor|].
  destruct (Ascii.eqb c sep) eqn:Hc; [by constructor|].
  destruct (split sep s) as [|field fields]; [by repeat constructor; simpl; rewrite Hc|].
  inversion IH as [|? ? Hfield Hfields]; subst.
  constructor; [|done]. simpl. by rewrite Hc, Hfield.
Qed.

Lemma name_le_total : Total Paths.name_le.
Proof. intros a b. apply String.leb_total. Qed.

Lemma rstrip_slash_idemp s : rstrip_slash (rstrip_slash s) = rstrip_slash s.
Proof.
  induction s as [|c s IH]; [reflexivity|]. simpl.
  destruct (rstrip_slash s) as [|d t] eqn:Hs.
  - destruct (Ascii.eqb c "/") eqn:Hc; [reflexivity|].
    simpl. by rewrite Hc.
  - simpl. simpl in IH. rewrite IH. reflexivity.
Qed.

Lemma rstrip_slash_trailing s : rstrip_slash (s +:+ "/") = rstrip_slash s.
Proof.
  induction s as [|c s IH]; [reflexivity|].
  rewrite append_cons. simpl. by rewrite IH.
Qed.

End PathFacts.

(* ===================================================================== *)
(** ** Start-up                                                           *)
(* ===================================================================== *)

Section Startup.

Context {unicode : UnicodeData}.

(** What the file names found in the directory become. *)
Lemma discover_chapters_sorted names :
  exists files,
    discover_chapters (Some names) = Paths.stem <$> files
    /\ files ≡ₚ glob_json names
    /\ Sorted Paths.name_le files.
Proof.
  unfold discover_chapters.
  destruct (glob_json names) as [|name found] eqn:Hglob.
  - exists []. by repeat split.
  - exists (merge_sort Paths.name_le (name :: found)). split; [reflexivity|].
    split; [apply merge_sort_Permutation|].
    apply (@Sorted_merge_sort _ _ _ name_le_total).
Qed.

Lemma elem_of_glob_json name names :
  name ∈ glob_json names
  <-> name ∈ names /\ exists x, name = x +:+ ".json".
Proof.
  unfold glob_json. rewrite list_elem_of_filter. split.
  - intros [Hend Hin]. split; [exact Hin | by apply endswith_inv].
  - intros [Hin [x ->]]. split; [apply endswith_append | exact Hin].
Qed.

(** Chapter discovery.  Without the directory, or without a [.json] name in
    it, no chapter is found.  Otherwise the chapters are the stems of the
    names that end in [.json], one for each such name, in the order of the
    names; a file [x.json] whose name does not begin with a dot gives the
    chapter [x]. *)
Theorem discover_chapters_files names :
  discover_chapters None = []
  /\ (exists files,
        discover_chapters (Some names) = Paths.stem <$> files
        /\ Sorted Paths.name_le files
        /\ length files = length (glob_json names)
        /\ forall name,
            name ∈ files
            <-> name ∈ names /\ exists x, name = x +:+ ".json")
  /\ (forall c x,
        String c x +:+ ".json" ∈ names -> c <> "."%char ->
        String c x ∈ discover_chapters (Some names)).
Proof.
  split; [reflexivity|].
  destruct (discover_chapters_sorted names) as (files & Hfiles & Hperm & Hsort).
  split.
  - exists files. split; [exact Hfiles|]. split; [exact Hsort|].
    split; [by rewrite Hperm|].
    intros name. rewrite Hperm. apply elem_of_glob_json.
  - intros c x Hin _. rewrite Hfiles.
    apply list_elem_of_fmap. exists (String c x +:+ ".json").
    split; [by rewrite stem_json|].
    rewrite Hperm. apply elem_of_glob_json. eauto.
Qed.

(** A chapter found in the directory is never the empty name. *)
Lemma discover_chapters_nonempty dir :
  Forall (fun c => c <> "") (discover_chapters dir).
Proof.
  destruct dir as [names|]; [|constructor].
  destruct (discover_chapters_sorted names) as (files & -> & Hperm & _).
  apply Forall_fmap, Forall_forall. intros name Hin. simpl.
  rewrite Hperm in Hin. apply elem_of_glob_json in Hin as [_ [x ->]].
  apply stem_nonempty. by destruct x.
Qed.

Lemma elem_of_chapters_of_variable c value :
  c ∈ chapters_of_variable value
  <-> c <> "" /\ exists field, field ∈ split "," value /\ Paths.strip field = c.
Proof.
  unfold chapters_of_variable. rewrite list_elem_of_omap. split.
  - intros (field & Hin & Hc).
    destruct (Paths.strip field) as [|a rest] eqn:Hstrip; [discriminate|].
    injection Hc as <-. split; [discriminate | eauto].
  - intros [Hne (field & Hin & Hstrip)]. exists field. split; [exact Hin|].
    rewrite Hstrip. by destruct c.
Qed.

Lemma chapters_of_variable_nonempty value :
  Forall (fun c => c <> "") (chapters_of_variable value).
Proof.
  apply Forall_forall. intros c Hc.
  by apply elem_of_chapters_of_variable in Hc as [Hne _].
Qed.

(** The chapters named by the CHAPTERS variable: each one is a field of the
    comma-separated value with the whitespace around it removed (the
    whitespace of [str.strip()], inside and outside ASCII), so it is not
    empty, has no comma in it, and neither its first nor its last character
    is whitespace: stripping it again changes nothing. *)
Theorem chapters_of_variable_clean value :
  Forall (fun c => c <> ""
                   /\ contains "," c = false
                   /\ head_not_whitespace (chars c)
                   /\ last_not_whitespace (chars c)
                   /\ Paths.strip c = c
                   /\ exists field,
                       field ∈ split "," value /\ c = Paths.strip field)
         (chapters_of_variable value).
Proof.
  apply Forall_forall. intros c Hc.
  apply elem_of_chapters_of_variable in Hc as [Hne (field & Hin & <-)].
  destruct (strip_ends field) as [Hhead Hlast].
  split; [exact Hne|]. split; [|split; [exact Hhead|]; split; [exact Hlast|];
                                 split; [apply strip_idemp | eauto]].
  apply contains_strip.
  pose proof (split_fields_no_sep "," value) as Hfields.
  rewrite Forall_forall in Hfields. by apply Hfields.
Qed.

(** Where the names of a started module come from. *)
Lemma startup_started env settings :
  startup env = Started settings ->
  BOT_TOKEN settings <> ""
  /\ environ env "BOT_TOKEN" = Some (BOT_TOKEN settings)
  /\ CHAT_ID (config settings) <> ""
  /\ environ env "CHAT_ID" = Some (CHAT_ID (config settings))
  /\ int (environ_get env "QUESTIONS_PER_RUN" "1")
     = Some (QUESTIONS_PER_RUN (config settings))
  /\ CHAPTERS (config settings) <> []
  /\ CHAPTERS (config settings)
     = match environ env "CHAPTERS" with
       | None | Some EmptyString => discover_chapters (questions_dir env)
       | Some value => chapters_of_variable value
       end.
Proof.
  unfold startup. intros Hstart.
  repeat case_match; try discriminate; injection Hstart as <-; simpl;
    by repeat split.
Qed.

(** When the import of the module succeeds, the token and the chat id are
    not empty, there is at least one chapter, and no chapter is the empty
    name. *)
Theorem startup_invariant env settings :
  startup env = Started settings ->
  BOT_TOKEN settings <> ""
  /\ CHAT_ID (config settings) <> ""
  /\ CHAPTERS (config settings) <> []
  /\ Forall (fun c => c <> "") (CHAPTERS (config settings)).
Proof.
  intros (Htoken & _ & Hchat & _ & _ & Hne & Hchapters)%startup_started.
  repeat split; try done.
  rewrite Hchapters.
  destruct (environ env "CHAPTERS") as [[|a value]|];
    try apply discover_chapters_nonempty.
  eapply Forall_impl; [apply chapters_of_variable_nonempty|]. done.
Qed.

Lemma chapters_of_variable_blank value :
  Forall (fun field => Paths.strip field = "") (split "," value) ->
  chapters_of_variable value = [].
Proof.
  unfold chapters_of_variable.
  induction 1 as [|field fields Hblank _ IH]; [reflexivity|].
  simpl. rewrite Hblank. exact IH.
Qed.

(** A CHAPTERS variable that is set but names no chapter (only commas and
    whitespace) is not replaced by the chapters of the directory: the import
    of the module never succeeds. *)
Theorem startup_blank_chapters env value :
  environ env "CHAPTERS" = Some value -> value <> "" ->
  Forall (fun field => Paths.strip field = "") (split "," value) ->
  forall settings, startup env <> Started settings.
Proof.
  intros Hvar Hvalue Hblank settings Hstart.
  apply startup_started in Hstart as (_ & _ & _ & _ & _ & Hne & Hchapters).
  rewrite Hvar in Hchapters. destruct value as [|a value]; [done|].
  by rewrite (chapters_of_variable_blank _ Hblank) in Hchapters.
Qed.

(** After a successful import every run of [send_questions] returns normally
    after [max(1, QUESTIONS_PER_RUN)] iterations, whatever the outside world
    answers; with QUESTIONS_PER_RUN unset that is one iteration. *)
Theorem startup_then_send_questions env settings w t :
  startup env = Started settings ->
  exists segments,
    send_questions (config settings) w t = (Ok tt, t ++ concat segments)
    /\ length segments
       = Z.to_nat (Z.max 1 (QUESTIONS_PER_RUN (config settings)))
    /\ Forall (iteration (CHAPTERS (config settings))) segments
    /\ (environ env "QUESTIONS_PER_RUN" = None -> length segments = 1%nat).
Proof.
  intros (_ & _ & _ & _ & Hcount & Hne & _)%startup_started.
  destruct (for_range_iterations (config settings) w
              (Z.to_nat (Z.max 1 (QUESTIONS_PER_RUN (config settings))))
              Hne t) as (segments & Hrun & Hlen & Hiter).
  exists segments. split; [exact Hrun|]. split; [exact Hlen|].
  split; [exact Hiter|].
  intros Hunset. unfold environ_get in Hcount. rewrite Hunset in Hcount.
  change (Some 1 = Some (QUESTIONS_PER_RUN (config settings))) in Hcount.
  injection Hcount as Hone. rewrite Hlen, <- Hone. reflexivity.
Qed.

(** Chapters found in the directory are served from the directory: when the
    CHAPTERS variable is unset or empty, the listed files are there and none
    of them has a name that begins with a dot, loading any configured chapter
    opens its local file and makes no request. *)
Theorem discovered_chapters_load_locally env settings names w :
  startup env = Started settings ->
  environ env "CHAPTERS" = None \/ environ env "CHAPTERS" = Some "" ->
  questions_dir env = Some names ->
  (forall name, name ∈ names -> is_Some (local_files w name)) ->
  (forall name rest, name ∈ names -> name <> String "." rest) ->
  forall c t,
    c ∈ CHAPTERS (config settings) ->
    exists d,
      local_files w (c +:+ ".json") = Some d
      /\ load_questions (config settings) w c t
         = (match d with
            | Parsed questions => Ok questions
            | Unparsable => Raise JSONDecodeError
            end,
            t ++ [EExists (c +:+ ".json"); EOpen (c +:+ ".json")]).
Proof.
  intros (_ & _ & _ & _ & _ & _ & Hchapters)%startup_started
         Hvar Hdir Hfiles Hdot c t Hc.
  assert (CHAPTERS (config settings) = discover_chapters (Some names)) as Heq.
  { rewrite Hchapters, Hdir. by destruct Hvar as [-> | ->]. }
  rewrite Heq in Hc.
  destruct (discover_chapters_sorted names) as (files & Hstems & Hperm & _).
  rewrite Hstems in Hc.
  apply list_elem_of_fmap in Hc as (name & -> & Hname).
  rewrite Hperm in Hname. apply elem_of_glob_json in Hname as [Hin [x ->]].
  destruct x as [|a x]; [by destruct (Hdot _ "json" Hin)|].
  rewrite stem_json.
  destruct (Hfiles _ Hin) as [d Hd].
  exists d. split; [exact Hd | by apply load_questions_local].
Qed.

(** The remote base is empty or ends with exactly one slash, and slashes at
    the end of the variable make no difference. *)
Theorem GITHUB_RAW_BASE_normal cfg :
  (GITHUB_RAW_BASE cfg = ""
   \/ exists base,
       GITHUB_RAW_BASE cfg = base +:+ "/" /\ rstrip_slash base = base)
  /\ (forall cfg' value,
        value <> "" ->
        GITHUB_RAW_BASE_env cfg = Some value ->
        GITHUB_RAW_BASE_env cfg' = Some (value +:+ "/") ->
        GITHUB_RAW_BASE cfg' = GITHUB_RAW_BASE cfg).
Proof.
  split.
  - destruct (GITHUB_RAW_BASE_env cfg) as [[|a value]|] eqn:Henv.
    + left. apply GITHUB_RAW_BASE_empty. by right.
    + right. exists (rstrip_slash (String a value)).
      split; [by apply GITHUB_RAW_BASE_set | apply rstrip_slash_idemp].
    + left. apply GITHUB_RAW_BASE_empty. by left.
  - intros cfg' value Hne Henv Henv'.
    rewrite (GITHUB_RAW_BASE_set cfg _ Henv Hne).
    rewrite (GITHUB_RAW_BASE_set cfg' _ Henv') by (by destruct value).
    by rewrite rstrip_slash_trailing.
Qed.

End Startup.

Section StartupExamples.

#[local] Existing Instance sample_unicode.

Lemma discover_chapters_files_witness :
  "ch1.json" ∈ ["notes.txt"; "ch2.json"; "ch1.json"]
  /\ "ch1" ∈ discover_chapters (Some ["notes.txt"; "ch2.json"; "ch1.json"]).
Proof.
  assert ("ch1.json" ∈ ["notes.txt"; "ch2.json"; "ch1.json"]) as Hin
    by (by vm_compute; do 2 right; left).
  split; [exact Hin|].
  destruct (discover_chapters_files ["notes.txt"; "ch2.json"; "ch1.json"])
    as (_ & _ & Hfound).
  apply (Hfound "c"%char "h1" Hin). discriminate.
Defined.

Lemma startup_invariant_witness :
  exists settings,
    startup example_environment = Started settings
    /\ CHAPTERS (config settings) <> [].
Proof.
  eexists. split; [reflexivity|].
  eapply (startup_invariant example_environment). reflexivity.
Defined.

Lemma startup_blank_chapters_witness :
  environ blank_chapters_environment "CHAPTERS" = Some " , ,"
  /\ forall settings, startup blank_chapters_environment <> Started settings.
Proof.
  split; [reflexivity|].
  apply (startup_blank_chapters blank_chapters_environment " , ,");
    [reflexivity | discriminate | by repeat constructor].
Defined.

Lemma startup_then_send_questions_witness :
  exists settings segments,
    startup example_environment = Started settings
    /\ send_questions (config settings) discovered_world []
       = (Ok tt, concat segments)
    /\ length segments = 1%nat.
Proof.
  eexists.
  destruct (startup_then_send_questions example_environment _
              discovered_world [] eq_refl)
    as (segments & Hrun & _ & _ & Hone).
  exists segments. split; [reflexivity|]. split; [exact Hrun|].
  apply Hone. reflexivity.
Defined.

Lemma discovered_chapters_load_locally_witness :
  exists settings,
    startup example_environment = Started settings
    /\ load_questions (config settings) discovered_world "ch2" []
       = (Ok [remote_question], [EExists "ch2.json"; EOpen "ch2.json"]).
Proof.
  eexists. split; [reflexivity|].
  destruct (discovered_chapters_load_locally example_environment _
              ["notes.txt"; "ch2.json"; "ch1.json"] discovered_world
              eq_refl (or_introl eq_refl) eq_refl) with (c := "ch2") (t := @nil event)
    as (d & Hd & Hload).
  - intros name Hin. repeat (apply elem_of_cons in Hin as [-> | Hin]);
      [by eexists.. | by apply elem_of_nil in Hin].
  - intros name rest Hin. repeat (apply elem_of_cons in Hin as [-> | Hin]);
      [discriminate.. | by apply elem_of_nil in Hin].
  - simpl. right. left.
  - injection Hd as <-. exact Hload.
Defined.

Lemma GITHUB_RAW_BASE_normal_witness :
  GITHUB_RAW_BASE sequential_config = "https://example.org/bank/"
  /\ GITHUB_RAW_BASE
       {| CHAT_ID := "-1001"; QUESTIONS_PER_RUN := 3; MODE := "sequential";
          GITHUB_RAW_BASE_env := Some "https://example.org/bank//";
          CHAPTERS := ["ch1"; "ch2"] |}
     = GITHUB_RAW_BASE sequential_config.
Proof.
  split; [reflexivity|].
  destruct (GITHUB_RAW_BASE_normal sequential_config) as [_ Hsame].
  apply (Hsame _ "https://example.org/bank/"); [discriminate | reflexivity..].
Defined.

(** Whitespace outside ASCII is stripped like the space. *)
Example chapters_of_variable_unicode :
  chapters_of_variable " ch1 , é ,　ch2 " = ["ch1"; "é"; "ch2"].
Proof. reflexivity. Qed.

(** A CHAPTERS variable that holds a no-break space and an em space only. *)
Example startup_no_break_space :
  startup
    {| environ := fun key =>
         if String.eqb key "BOT_TOKEN" then Some "123:abc"
         else if String.eqb key "CHAT_ID" then Some "-1001"
         else if String.eqb key "CHAPTERS" then Some " , "
         else None;
       questions_dir := Some ["ch1.json"] |}
  = SystemExit "No chapters found".
Proof. reflexivity. Qed.

End StartupExamples.
